(** * geoh5py / geoh5io: entity tree, data entities, geo-images and EM surveys

    A shallow embedding of the parts of the repository that carry
    invariants:

    - [Tree]      : [geoh5io/shared/entity.py], [Entity.set_parent];
    - [DataModel] : [geoh5py/data/data.py], the [Data] base class;
    - [GeoImage]  : [geoh5py/objects/geo_image.py], the [vertices] property;
    - [EMSurvey]  : [geoh5py/objects/surveys/electromagnetics/base.py];
    - [GroundTEM] : [.../electromagnetics/ground_tem.py], the re-numbering
                    of transmitter identifiers in [BaseGroundTEM.copy].

    Python objects that are mutated in place live in an explicit state;
    a raised exception keeps the state reached so far. *)

From stdpp Require Import gmap strings list sorting pretty.
From Stdlib Require Import QArith.
Set Warnings "-register-all".
Local Open Scope string_scope.

(** ** Exceptions and the state-and-exception monad *)

(** The Python exception classes raised by the modelled code, and two
    error kinds that only the specification names ([ShapeMismatch],
    [IdentityError]), raised by the operations modelled from it. *)
Inductive exn_class :=
| AttributeError | TypeError | ValueError | KeyError | IndexError
| AssertionError | NotImplementedError
| ShapeMismatch | IdentityError.

(** An exception: its class and a short label of the statement raising it. *)
Record exn := Exn { exn_cls : exn_class; exn_site : string }.

(** Outcome of a call on a state [S]: a value, or an exception; in both
    cases with the state as the call left it. *)
Inductive outcome (S A : Type) :=
| Done (a : A) (s : S)
| Raised (e : exn) (s : S).
Arguments Done {S A} a s.
Arguments Raised {S A} e s.

Definition M (S A : Type) : Type := S -> outcome S A.

Definition ret {S A} (a : A) : M S A := fun s => Done a s.
Definition raise {S A} (c : exn_class) (site : string) : M S A :=
  fun s => Raised (Exn c site) s.
Definition bind {S A B} (m : M S A) (k : A -> M S B) : M S B :=
  fun s => match m s with
           | Done a s' => k a s'
           | Raised e s' => Raised e s'
           end.
Definition get {S} : M S S := fun s => Done s s.
Definition put {S} (s : S) : M S unit := fun _ => Done tt s.
Definition modify {S} (f : S -> S) : M S unit := fun s => Done tt (f s).

Notation "x <- m ;; k" := (bind m (fun x => k))
  (at level 100, m at next level, right associativity).
Notation "m ;;; k" := (bind m (fun _ => k))
  (at level 100, right associativity).

Definition final_state {S A} (o : outcome S A) : S :=
  match o with Done _ s => s | Raised _ s => s end.

Definition raises {S A} (o : outcome S A) : Prop :=
  match o with Done _ _ => False | Raised _ _ => True end.

Definition raises_class {S A} (c : exn_class) (o : outcome S A) : Prop :=
  match o with Done _ _ => False | Raised e _ => exn_cls e = c end.

(** [for x in l: body x]. *)
Fixpoint for_each {S A} (l : list A) (body : A -> M S unit) : M S unit :=
  match l with
  | [] => ret tt
  | x :: l' => body x ;;; for_each l' body
  end.

(** A UUID, as its 128-bit integer value [uuid.UUID.int]. *)
Abbreviation uuid := N (only parsing).

(** ** The workspace tree of geoh5io *)

Module Tree.

(** [workspace.tree[uid]]: a dictionary with the keys "parent" and
    "children". *)
Record node := Node { parent : option uuid; children : list uuid }.

Record entity := Entity { uid : uuid; name : string }.

(** What [set_parent] needs of the workspace: the tree and the entities
    that [get_entity] searches. *)
Record workspace := Workspace {
  tree : gmap uuid node;
  entities : list entity;
}.

(** Modelled from the spec: [Workspace.get_entity] is outside the
    sources; it "returns all entities matching" the given name. *)
Definition get_entity (ws : workspace) (nm : string) : list entity :=
  filter (fun e => name e = nm) (entities ws).

(** The argument [parent] of [set_parent]: a UUID, an Entity, or anything
    else ([None] included). *)
Inductive parent_arg :=
| ByUid (u : uuid)
| ByEntity (e : entity)
| ByOther.

(** Lines 71-77: the uid the argument resolves to. *)
Definition resolve_parent (p : parent_arg) : M workspace uuid :=
  match p with
  | ByUid u => ret u
  | ByEntity e => ret (uid e)
  | ByOther =>
      ws <- get ;;
      match get_entity ws "Workspace" with
      | e :: _ => ret (uid e)
      | [] => raise IndexError "get_entity('Workspace')[0]"
      end
  end.

Definition set_node (u : uuid) (n : node) : M workspace unit :=
  modify (fun ws => Workspace (<[u := n]> (tree ws)) (entities ws)).

(** [Entity.set_parent], lines 65-83. *)
Definition set_parent (self : uuid) (p : parent_arg) : M workspace unit :=
  u <- resolve_parent p ;;
  ws <- get ;;
  match tree ws !! self with
  | None => raise KeyError "tree[self.uid]"
  | Some n =>
      (* tree[self.uid]["parent"] = uid *)
      set_node self (Node (Some u) (children n)) ;;;
      ws <- get ;;
      match tree ws !! u with
      | None => raise KeyError "tree[uid]"
      | Some m =>
          (* if self.uid not in tree[uid]["children"]: ... += [self.uid] *)
          if bool_decide (self ∈ children m) then ret tt
          else set_node u (Node (parent m) (children m ++ [self]))
      end
  end.

(** [Entity.get_parent] reads [tree[self.uid]["parent"]]. *)
Definition parent_of (ws : workspace) (e : uuid) : option uuid :=
  n ← tree ws !! e; parent n.

(** [e] is in the children list of the tree entry [q]. *)
Definition listed_under (ws : workspace) (e q : uuid) : Prop :=
  ∃ n, tree ws !! q = Some n ∧ e ∈ children n.

Definition occurrences (ws : workspace) (e q : uuid) : nat :=
  match tree ws !! q with
  | Some n => length (filter (fun x => x = e) (children n))
  | None => 0
  end.

(** A small workspace: the root "Workspace" (1), two containers (2, 3) and
    an entity (4) placed under container 2. *)
Definition tree_ws : workspace :=
  Workspace
    (<[1%N := Node None [2; 3]%N]>
     (<[2%N := Node (Some 1%N) [4%N]]>
      (<[3%N := Node (Some 1%N) []]>
       (<[4%N := Node (Some 2%N) []]> ∅))))
    [Entity 1 "Workspace"; Entity 2 "A"; Entity 3 "B"; Entity 4 "e"].

(** Modelled from the spec: [Workspace.get_entity] called with a UUID is
    outside the sources; it returns the entities registered under that
    uid ("UUID lookup returns 0 or 1"). *)
Definition get_entity_uid (ws : workspace) (u : uuid) : list entity :=
  filter (fun e => uid e = u) (entities ws).

(** [Entity.get_parent], lines 85-92. A tree entry without parent has no
    "parent" key. *)
Definition get_parent (self : uuid) : M workspace entity :=
  ws <- get ;;
  match tree ws !! self with
  | None => raise KeyError "tree[self.uid]"
  | Some n =>
      match parent n with
      | None => raise KeyError "tree[self.uid]['parent']"
      | Some u =>
          match get_entity_uid ws u with
          | e :: _ => ret e
          | [] => raise IndexError "get_entity(uid)[0]"
          end
      end
  end.

End Tree.

(** ** Data entities of geoh5py *)

Module DataModel.

(** Modelled from the spec: [DataAssociationEnum] is declared in
    [data_association_enum.py], outside the sources; the association is
    one of VERTEX, CELL, FACE, OBJECT. *)
Inductive DataAssociationEnum := OBJECT | CELL | VERTEX | FACE.

(** Modelled from the spec: [PrimitiveTypeEnum] is declared in
    [primitive_type_enum.py], outside the sources; a value array is
    "float/int/text/referenced/filename". *)
Inductive PrimitiveTypeEnum := FLOAT | INTEGER | TEXT | REFERENCED | FILENAME.

#[global] Instance DataAssociationEnum_eq_dec : EqDecision DataAssociationEnum.
Proof. solve_decision. Defined.
#[global] Instance PrimitiveTypeEnum_eq_dec : EqDecision PrimitiveTypeEnum.
Proof. solve_decision. Defined.

(** The part of a [DataType] descriptor that [Data] reads and writes. *)
Record DataType := mkDataType {
  type_uid : uuid;
  type_name : string;
  primitive_type : PrimitiveTypeEnum;
}.

(** A value array; only its length and its identity matter here, the
    elements are carried as integers. *)
Abbreviation array := (list Z).

(** The element counts of a parent object that [n_values] reads; a count
    is [None] while the corresponding array is unset. *)
Record ObjectBase := mkObject {
  n_vertices : option nat;
  n_cells : option nat;
  n_faces : option nat;
}.

(** A [Data] instance. [cls_primitive_type] is the result of the class
    method [primitive_type()] of its concrete class. *)
Record Data := mkData {
  cls_primitive_type : PrimitiveTypeEnum;
  uid : uuid;
  name : string;
  parent : option uuid;
  _association : option DataAssociationEnum;
  _on_file : bool;
  _entity_type : DataType;
  _values : option array;
}.

Record workspace := mkWorkspace {
  data : gmap uuid Data;                  (* registered Data entities *)
  objects : gmap uuid ObjectBase;         (* their possible parents *)
  store : gmap (uuid * string) array;     (* persisted array attributes *)
  dirty : list (option uuid * string);    (* calls of update_attribute *)
}.

Definition set_data (u : uuid) (d : Data) : M workspace unit :=
  modify (fun ws => mkWorkspace (<[u := d]> (data ws)) (objects ws)
                                (store ws) (dirty ws)).

(** The entity behind a reference; the error branch is never taken for a
    registered entity. *)
Definition the_data (u : uuid) : M workspace Data :=
  ws <- get ;;
  match data ws !! u with
  | Some d => ret d
  | None => raise KeyError "unregistered entity"
  end.

(** Modelled from the spec: [Workspace.fetch_array_attribute] is outside
    the sources; it "pulls a named array attribute from the store". *)
Definition fetch_array_attribute (ws : workspace) (u : uuid) (attr : string)
  : option array := store ws !! (u, attr).

(** Modelled from the spec: [Workspace.update_attribute] is outside the
    sources; it "marks the named attribute dirty and schedules/flushes a
    write to the underlying store", and its effect "is visible to any
    subsequent fetch_array_attribute call on the same uid". The entity
    may not have a uid yet (a call made while it is constructed). *)
Definition update_attribute (who : option uuid) (attr : string)
  : M workspace unit :=
  modify (fun ws =>
    let written :=
      match who with
      | Some u =>
          match data ws !! u with
          | Some d =>
              if bool_decide (attr = "values") then
                match _values d with
                | Some a => <[(u, attr) := a]> (store ws)
                | None => delete (u, attr) (store ws)
                end
              else store ws
          | None => store ws
          end
      | None => store ws
      end in
    mkWorkspace (data ws) (objects ws) written (dirty ws ++ [(who, attr)])).

(** [self.parent.<count>]: the parent object and one of its counts. *)
Definition parent_count (d : Data) (count : ObjectBase -> option nat)
  : M workspace (option nat) :=
  ws <- get ;;
  match parent d ≫= (fun p => objects ws !! p) with
  | Some o => ret (count o)
  | None => raise AttributeError "self.parent"
  end.

(** [Data.n_values], lines 56-71. *)
Definition n_values (u : uuid) : M workspace (option nat) :=
  d <- the_data u ;;
  match _association d with
  | Some VERTEX => parent_count d n_vertices
  | Some CELL => parent_count d n_cells
  | Some FACE => parent_count d n_faces
  | Some OBJECT => ret (Some 1%nat)
  | None => ret None
  end.

(** The count that the association of [d] selects on its parent [o]. *)
Definition expected (d : Data) (o : ObjectBase) : option nat :=
  match _association d with
  | Some VERTEX => n_vertices o
  | Some CELL => n_cells o
  | Some FACE => n_faces o
  | Some OBJECT => Some 1%nat
  | None => None
  end.

(** [Data.values] (getter), lines 73-78. *)
Definition values (u : uuid) : M workspace (option array) :=
  d <- the_data u ;;
  ret (_values d).

(** The getter as the specification words it: "if cached, return; else if
    on_file, call fetch_array_attribute, cache, return; else return
    null". Kept for comparison with [values]. *)
Definition values_as_specified (u : uuid) : M workspace (option array) :=
  d <- the_data u ;;
  match _values d with
  | Some a => ret (Some a)
  | None =>
      if _on_file d then
        ws <- get ;;
        let a := fetch_array_attribute ws u "values" in
        set_data u (mkData (cls_primitive_type d) (uid d) (name d) (parent d)
                           (_association d) (_on_file d) (_entity_type d) a) ;;;
        ret a
      else ret None
  end.

(** Modelled from the spec: the [values] setter is defined by the concrete
    data classes, outside the sources: "validate shape/dtype against
    association-derived expected length (n_values), cache, call
    update_attribute, set on_file = true"; a wrong length raises
    ShapeMismatch. The length is checked whenever [n_values] is known. *)
Definition set_values (u : uuid) (a : array) : M workspace unit :=
  d <- the_data u ;;
  n <- n_values u ;;
  if match n with Some k => bool_decide (length a = k) | None => true end then
    set_data u (mkData (cls_primitive_type d) (uid d) (name d) (parent d)
                       (_association d) (_on_file d) (_entity_type d)
                       (Some a)) ;;;
    update_attribute (Some u) "values" ;;;
    d' <- the_data u ;;
    set_data u (mkData (cls_primitive_type d') (uid d') (name d') (parent d')
                       (_association d') true (_entity_type d') (_values d'))
  else raise ShapeMismatch "len(values) != n_values".

(** [str.upper] on ASCII letters. *)
Definition upper_ascii (c : Ascii.ascii) : Ascii.ascii :=
  let n := Ascii.nat_of_ascii c in
  if ((97 <=? n) && (n <=? 122))%nat then Ascii.ascii_of_nat (n - 32) else c.

Fixpoint upper (s : string) : string :=
  match s with
  | EmptyString => EmptyString
  | String c s' => String (upper_ascii c) (upper s')
  end.

(** [DataAssociationEnum.__members__] and [getattr(DataAssociationEnum, _)]. *)
Definition association_member (s : string) : option DataAssociationEnum :=
  if bool_decide (s = "OBJECT") then Some OBJECT
  else if bool_decide (s = "CELL") then Some CELL
  else if bool_decide (s = "VERTEX") then Some VERTEX
  else if bool_decide (s = "FACE") then Some FACE
  else None.

(** What may be assigned to [association]. *)
Inductive association_arg :=
| AssocStr (s : string)
| AssocEnum (a : DataAssociationEnum)
| AssocOther.

(** [Data.association] (setter), lines 92-106. *)
Definition set_association (u : uuid) (value : association_arg)
  : M workspace unit :=
  d <- the_data u ;;
  value <- match value with
           | AssocStr s =>
               match association_member (upper s) with
               | None => raise ValueError "Association flag should be one of"
               | Some a => ret (AssocEnum a)
               end
           | _ => ret value
           end ;;
  match value with
  | AssocEnum a =>
      set_data u (mkData (cls_primitive_type d) (uid d) (name d) (parent d)
                         (Some a) (_on_file d) (_entity_type d) (_values d))
  | _ => raise TypeError "Association must be of type DataAssociationEnum"
  end.

(** [Data.entity_type] (setter), lines 115-119, on a registered entity. *)
Definition set_entity_type (u : uuid) (data_type : DataType)
  : M workspace unit :=
  d <- the_data u ;;
  set_data u (mkData (cls_primitive_type d) (uid d) (name d) (parent d)
                     (_association d) (_on_file d) data_type (_values d)) ;;;
  update_attribute (Some u) "entity_type".

(** The keyword arguments handed to [Entity.__init__]. *)
Record kwargs := mkKwargs {
  kw_name : string;
  kw_uid : option uuid;
  kw_parent : option uuid;
}.

(** Modelled from the spec: [Entity.__init__] of [geoh5py.shared], the
    base class of [Data] (data.py 22 and 28), is outside the sources; an
    entity is "created with a UUID (generated or supplied ...)": a given
    uid is taken, otherwise [uuid.uuid4()] draws one, here [fresh], and
    the name is stored as given. The assertion [uid.int != 0] is made by
    the constructor of geoh5io (entity.py 12), which is another class
    than this base class; no check of the uid is modelled here. *)
Definition entity_init (kw : kwargs) (fresh : uuid)
  : M workspace (uuid * string) :=
  ret (default fresh (kw_uid kw), kw_name kw).

(** Modelled from the spec: [Workspace._register_data] is outside the
    sources; "register(entity): inserts into UUID map; fails with
    DuplicateUUID if uid already present". *)
Definition _register_data (d : Data) : M workspace unit :=
  ws <- get ;;
  match data ws !! uid d with
  | Some _ => raise IdentityError "DuplicateUUID"
  | None => set_data (uid d) d
  end.

(** [d] with another name for its type descriptor. *)
Definition with_type_name (d : Data) (nm : string) : Data :=
  mkData (cls_primitive_type d) (uid d) (name d) (parent d) (_association d)
         (_on_file d)
         (mkDataType (type_uid (_entity_type d)) nm
                     (primitive_type (_entity_type d)))
         (_values d).

(** [data_type.name = nm], line 52: the descriptor is an object shared by
    the entities constructed with it, and the assignment renames it in
    place, for all of them. The workspace interns one descriptor per uid
    ("no two live EntityType instances in one workspace share a uid"), so
    the entities that hold the object are those whose descriptor has its
    uid. *)
Definition rename_type (tu : uuid) (nm : string) : M workspace unit :=
  modify (fun ws =>
    mkWorkspace
      ((fun d => if bool_decide (type_uid (_entity_type d) = tu)
                 then with_type_name d nm else d) <$> data ws)
      (objects ws) (store ws) (dirty ws)).

(** [Data.__init__], lines 37-54, for a concrete class whose
    [primitive_type()] is [cls]. Returns the reference of the new entity. *)
Definition data_init (cls : PrimitiveTypeEnum) (data_type : option DataType)
    (kw : kwargs) (fresh : uuid) : M workspace uuid :=
  match data_type with
  | None => raise AssertionError "data_type is not None"
  | Some t =>
      if bool_decide (primitive_type t = cls) then
        (* self.entity_type = data_type *)
        update_attribute None "entity_type" ;;;
        un <- entity_init kw fresh ;;
        (* if self.entity_type.name == "Entity": ... = self.name *)
        (if bool_decide (type_name t = "Entity")
         then rename_type (type_uid t) (snd un) else ret tt) ;;;
        let t' := if bool_decide (type_name t = "Entity")
                  then mkDataType (type_uid t) (snd un) (primitive_type t)
                  else t in
        let d := mkData cls (fst un) (snd un) (kw_parent kw)
                        None false t' None in
        _register_data d ;;;
        ret (uid d)
      else raise AssertionError "primitive_type == self.primitive_type()"
  end.

(** A surface with 4 vertices and 2 cells (1), and a float type. *)
Definition float_type : DataType := mkDataType 100 "Entity" FLOAT.
Definition text_type : DataType := mkDataType 101 "Notes" TEXT.

Definition ws_empty : workspace :=
  mkWorkspace ∅ (<[1%N := mkObject (Some 4%nat) (Some 2%nat) None]> ∅) ∅ [].

(** The same workspace after creating float data 7 under the surface. *)
Definition ws_float : workspace :=
  final_state (data_init FLOAT (Some float_type)
                 (mkKwargs "TMI" (Some 7%N) (Some 1%N)) 9%N ws_empty).

(** A data entity flagged as on file whose array is persisted but not
    cached. *)
Definition d_on_file : Data :=
  mkData FLOAT 7 "TMI" (Some 1%N) (Some VERTEX) true float_type None.

Definition ws_on_file : workspace :=
  mkWorkspace (<[7%N := d_on_file]> ∅)
              (<[1%N := mkObject (Some 4%nat) (Some 2%nat) None]> ∅)
              (<[(7%N, "values") := [10; 20; 30; 40]%Z]> ∅) [].

(** The scenario of the specification: the data 7 is associated with the
    vertices of the surface, then receives four values; its association
    is then changed to the cells. *)
Definition ws_vertex : workspace :=
  final_state (set_association 7 (AssocStr "vertex") ws_float).

Definition ws_valued : workspace :=
  final_state (set_values 7 [10; 20; 30; 40]%Z ws_vertex).

Definition ws_cell : workspace :=
  final_state (set_association 7 (AssocEnum CELL) ws_valued).

(** The name of a member of [DataAssociationEnum]. *)
Definition association_name (a : DataAssociationEnum) : string :=
  match a with
  | OBJECT => "OBJECT"
  | CELL => "CELL"
  | VERTEX => "VERTEX"
  | FACE => "FACE"
  end.

(** [d] with another association, everything else as it is. *)
Definition with_association (d : Data) (a : DataAssociationEnum) : Data :=
  mkData (cls_primitive_type d) (uid d) (name d) (parent d) (Some a)
         (_on_file d) (_entity_type d) (_values d).

(** A data entity without parent. *)
Definition orphan : Data :=
  mkData FLOAT 5 "orphan" None (Some VERTEX) false float_type None.

End DataModel.

(** ** The vertices of a geo-image *)

Module GeoImage.

(** A numpy array: its shape and its elements by multi-index. The
    elements are the numbers of the array, integers or 64-bit floats,
    carried as rationals; infinities and NaN are outside the model. *)
Record ndarray := mkArray { shape : list nat; item : list nat -> Q }.

(** A Python number or (nested) list of numbers. *)
Inductive nested :=
| Num (x : Q)
| Seq (l : list nested).

(** The shape [np.asarray] finds for a nested list; [None] when the list
    is ragged. *)
Fixpoint nested_shape (x : nested) : option (list nat) :=
  match x with
  | Num _ => Some []
  | Seq l =>
      match map nested_shape l with
      | [] => Some [0%nat]
      | s :: ss =>
          sh ← s;
          if forallb (fun s' => bool_decide (s' = Some sh)) ss
          then Some (length l :: sh) else None
      end
  end.

Fixpoint nested_item (x : nested) (idx : list nat) : Q :=
  match x with
  | Num q => q
  | Seq l =>
      match idx with
      | [] => 0%Q
      | i :: idx' => nth i (map nested_item l) (fun _ => 0%Q) idx'
      end
  end.

(** [np.asarray(xyz)] for a list [xyz]. A ragged list has no (4, 3)
    shape: numpy either refuses it with ValueError or builds an array of
    objects of another shape, which line 236 refuses with ValueError. *)
Definition asarray (l : list nested) : option ndarray :=
  sh ← nested_shape (Seq l); Some (mkArray sh (nested_item (Seq l))).

(** The cast to ["<f8"] of lines 239-241: the nearest number with a
    significand of 53 bits and an exponent from -1074 on, ties going to
    the even significand (IEEE 754 binary64, round to nearest even). The
    number is [m * 2 ^ ex] for the integer [m] nearest to
    [|q| / 2 ^ ex]. Numbers of magnitude 2 ^ 1024 and more, which have no
    finite float, are outside the model. *)
Definition f8 (q : Q) : Q :=
  let n := Qnum q in
  let d := Z.pos (Qden q) in
  if (n =? 0)%Z then 0%Q
  else
    let a := Z.abs n in
    (* e = floor (log2 (a / d)) *)
    let e0 := (Z.log2 a - Z.log2 d)%Z in
    let reached := if (0 <=? e0)%Z then (d * 2 ^ e0 <=? a)%Z
                   else (d <=? a * 2 ^ (- e0))%Z in
    let e := if reached then e0 else (e0 - 1)%Z in
    let ex := Z.max (e - 52) (-1074) in
    (* |q| / 2 ^ ex = num / den *)
    let num := if (0 <=? ex)%Z then a else (a * 2 ^ (- ex))%Z in
    let den := if (0 <=? ex)%Z then (d * 2 ^ ex)%Z else d in
    let k := (num / den)%Z in
    let r := (num mod den)%Z in
    let m := if (2 * r <? den)%Z then k
             else if (den <? 2 * r)%Z then (k + 1)%Z
             else if Z.even k then k else (k + 1)%Z in
    let v := (Z.sgn n * m)%Z in
    Qred (if (0 <=? ex)%Z then inject_Z (v * 2 ^ ex)
          else Qmake v (Z.to_pos (2 ^ (- ex)))).

(** The record array with fields x, y, z built on lines 239-241, each
    field of format ["<f8"]. *)
Abbreviation records := (list (Q * Q * Q)).

Definition fromarrays (a : ndarray) : records :=
  map (fun i => (f8 (item a [i; 0%nat]), f8 (item a [i; 1%nat]),
                 f8 (item a [i; 2%nat])))
      (seq 0 (hd 0%nat (shape a))).

(** [recs.view("<f8").reshape((-1, 3)).astype(float)], line 227. *)
Definition view_rows (r : records) : ndarray :=
  mkArray [length r; 3%nat]
    (fun idx =>
       match idx with
       | [i; j] =>
           match r !! i with
           | Some (x, y, z) =>
               match j with 0%nat => x | 1%nat => y | _ => z end
           | None => 0%Q
           end
       | _ => 0%Q
       end).

(** A [GeoImage] and what the workspace holds for it. [image_size] is
    [self.image.size] when the image child exists. *)
Record state := mkState {
  on_file : bool;
  _vertices : option records;
  image_size : option (nat * nat);
  file_vertices : option records;    (* the "vertices" attribute on file *)
  dirty : list string;               (* calls of update_attribute *)
}.

(** What may be assigned to [vertices]. *)
Inductive vertices_arg :=
| ArgList (l : list nested)
| ArgArray (a : ndarray)
| ArgOther.

(** Modelled from the spec: [Workspace.update_attribute] is outside the
    sources; it "marks the named attribute dirty and schedules/flushes a
    write to the underlying store". *)
Definition update_attribute (attr : string) : M state unit :=
  modify (fun s =>
    mkState (on_file s) (_vertices s) (image_size s)
            (if bool_decide (attr = "vertices") then _vertices s
             else file_vertices s)
            (dirty s ++ [attr])).

(** Modelled from the spec: [Workspace.fetch_array_attribute] is outside
    the sources; it "pulls a named array attribute from the store". *)
Definition fetch_array_attribute (s : state) : option records :=
  file_vertices s.

Definition set__vertices (r : option records) : M state unit :=
  modify (fun s => mkState (on_file s) r (image_size s)
                           (file_vertices s) (dirty s)).

(** Lines 233-236: the array the argument stands for, if any. *)
Definition as_ndarray (xyz : vertices_arg) : option ndarray :=
  match xyz with
  | ArgList l => asarray l
  | ArgArray a => Some a
  | ArgOther => None
  end.

(** [GeoImage.vertices] (setter), lines 231-243. *)
Definition set_vertices (xyz : vertices_arg) : M state unit :=
  match as_ndarray xyz with
  | Some a =>
      if bool_decide (shape a = [4%nat; 3%nat]) then
        set__vertices (Some (fromarrays a)) ;;;
        update_attribute "vertices"
      else raise ValueError "Input 'vertices' must be a numpy array of shape (4, 3)"
  | None => raise ValueError "Input 'vertices' must be a numpy array of shape (4, 3)"
  end.

(** [GeoImage.default_vertices], lines 75-89. *)
Definition default_vertices (s : state) : vertices_arg :=
  match image_size s with
  | Some (w, h) =>
      let w := inject_Z (Z.of_nat w) in
      let h := inject_Z (Z.of_nat h) in
      ArgList [Seq [Num 0; Num h; Num 0]; Seq [Num w; Num h; Num 0];
               Seq [Num w; Num 0; Num 0]; Seq [Num 0; Num 0; Num 0]]%Q
  | None => ArgOther
  end.

(** [GeoImage.vertices] (getter), lines 214-229. *)
Definition vertices : M state (option ndarray) :=
  s <- get ;;
  (if bool_decide (_vertices s = None) && on_file s
   then set__vertices (fetch_array_attribute s) else ret tt) ;;;
  s <- get ;;
  (if bool_decide (_vertices s = None) && bool_decide (image_size s ≠ None)
   then set_vertices (default_vertices s) else ret tt) ;;;
  s <- get ;;
  ret (view_rows <$> _vertices s).

(** The image setter, lines 115-161, reduced to what it does to the
    vertices: the image child exists afterwards, and line 161 assigns the
    default vertices. *)
Definition set_image (w h : nat) : M state unit :=
  modify (fun s => mkState (on_file s) (_vertices s) (Some (w, h))
                           (file_vertices s) (dirty s)) ;;;
  s <- get ;;
  set_vertices (default_vertices s).

(** [GeoImage.__init__], lines 43-51: no vertices, nothing on file. *)
Definition constructed : state := mkState false None None None [].

(** The argument is a list or an array of shape (4, 3). *)
Definition four_by_three (xyz : vertices_arg) : Prop :=
  ∃ a, as_ndarray xyz = Some a ∧ shape a = [4; 3]%nat.


(** The array [np.c_[...]] of lines 208-212: four rows of three
    coordinates. The least-squares solutions and the products that give
    its elements are the numeric collaborator, outside the sources;
    [coords i k] stands for coordinate [k] of corner [i]. *)
Definition georeferenced (coords : nat -> nat -> Q) : ndarray :=
  mkArray [4%nat; 3%nat]
    (fun idx => match idx with [i; k] => coords i k | _ => 0%Q end).

(** [GeoImage.georeference], lines 163-212, for the arrays [reference]
    and [locations] that [np.asarray] makes of its arguments. [solve]
    stands for the least-squares fit of lines 195-212. *)
Definition georeference
    (solve : ndarray -> ndarray -> nat * nat -> nat -> nat -> Q)
    (reference locations : ndarray) : M state unit :=
  s <- get ;;
  match image_size s with
  | None => raise AttributeError "An 'image' must be set before georeferencing."
  | Some size =>
      match shape reference with
      | [n; c] =>
          if (n <? 3)%nat || negb (c =? 2)%nat then
            raise ValueError "Input reference points must be a 2D array of shape(*, 2)"
          else
            match shape locations with
            | [n'; c'] =>
                if negb (n =? n')%nat || negb (c' =? 3)%nat then
                  raise ValueError "Input 'locations' must be a 2D array of shape(*, 3)"
                else
                  set_vertices
                    (ArgArray (georeferenced (solve reference locations size)))
            | _ => raise ValueError "Input 'locations' must be a 2D array of shape(*, 3)"
            end
      | _ => raise ValueError "Input reference points must be a 2D array of shape(*, 2)"
      end
  end.

(** An array of indices with its dtype. *)
Record index_array := mkIndices { dtype : string; rows : list (list N) }.

(** The cells of a geo-image and what the workspace holds for them. *)
Record cells_state := mkCells {
  c_on_file : bool;
  _cells : option index_array;
  file_cells : option index_array;   (* the "cells" attribute on file *)
  c_dirty : list string;             (* calls of update_attribute *)
}.

(** [GeoImage.cells] (setter), lines 69-73; [update_attribute] as
    modelled above, for the cells. *)
Definition set_cells (indices : index_array) : M cells_state unit :=
  if bool_decide (dtype indices = "uint32") then
    modify (fun s => mkCells (c_on_file s) (Some indices) (Some indices)
                             (c_dirty s ++ ["cells"]))
  else raise AssertionError "Indices array must be of type 'uint32'".

(** [np.c_[[0, 1, 2, 0], [0, 2, 3, 0]].T.astype("uint32")], line 65. *)
Definition default_cells : index_array :=
  mkIndices "uint32" [[0; 1; 2; 0]; [0; 2; 3; 0]]%N.

(** [GeoImage.cells] (getter), lines 53-67. *)
Definition cells : M cells_state (option index_array) :=
  s <- get ;;
  (match _cells s with
   | None =>
       if c_on_file s then
         modify (fun s => mkCells (c_on_file s) (file_cells s) (file_cells s)
                                  (c_dirty s))
       else set_cells default_cells
   | Some _ => ret tt
   end) ;;;
  s <- get ;;
  ret (_cells s).

(** The corners [default_vertices] gives for an image of [w] by [h]
    pixels, as the setter stores them. *)
Definition corners (w h : nat) : records :=
  let w := f8 (inject_Z (Z.of_nat w)) in
  let h := f8 (inject_Z (Z.of_nat h)) in
  [(f8 0, h, f8 0); (w, h, f8 0); (w, f8 0, f8 0); (f8 0, f8 0, f8 0)]%Q.

(** A geo-image on file whose vertices are not cached, and the arrays
    of three control points. *)
Definition on_disk : state :=
  mkState true None None (Some (corners 2 3)) [].


Definition three_pixels : ndarray := mkArray [3; 2]%nat (fun _ => 0%Q).
Definition three_points : ndarray := mkArray [3; 3]%nat (fun _ => 0%Q).

End GeoImage.

(** ** Electromagnetic surveys: metadata and component data *)

Module EMSurvey.

(** A [PropertyGroup]: its name and the uids of its properties. *)
Record PropertyGroup := mkGroup { pg_name : string; properties : list uuid }.

(** The Python values that occur in survey metadata and in the arguments
    of [edit_metadata]. Floats are carried as rationals. *)
Inductive pyval :=
| PNone
| PStr (s : string)
| PFloat (x : Q)
| PUid (u : uuid)
| PList (l : list pyval)
| PDict (d : gmap string pyval)
| PGroup (g : PropertyGroup).

(** A survey entity. [metadata] is the dictionary held in [_metadata];
    every concrete survey class provides it with an "EM Dataset" entry
    (see [default_metadata] in ground_tem.py). *)
Record survey := mkSurvey {
  metadata : gmap string pyval;
  property_groups : list PropertyGroup;
  children : list uuid;
  receivers : option uuid;
  transmitters : option uuid;
}.

(** A data child: its parent, its name, and whether it is a [FloatData]. *)
Record data_entity := mkDataEntity {
  d_parent : uuid;
  d_name : string;
  d_is_float : bool;
}.

Record workspace := mkWorkspace {
  surveys : gmap uuid survey;
  data : gmap uuid data_entity;
  next_uid : uuid;            (* the next uid the workspace hands out *)
  finalized : nat;            (* calls of finalize *)
}.

Definition set_survey (u : uuid) (s : survey) : M workspace unit :=
  modify (fun ws => mkWorkspace (<[u := s]> (surveys ws)) (data ws)
                                (next_uid ws) (finalized ws)).

(** The survey behind a reference; the error branch is never taken for a
    registered survey. *)
Definition the_survey (u : uuid) : M workspace survey :=
  ws <- get ;;
  match surveys ws !! u with
  | Some s => ret s
  | None => raise KeyError "unregistered entity"
  end.

Definition with_metadata (s : survey) (m : gmap string pyval) : survey :=
  mkSurvey m (property_groups s) (children s) (receivers s) (transmitters s).

(** [self.metadata["EM Dataset"]]. *)
Definition em_dataset (self : uuid) : M workspace (gmap string pyval) :=
  s <- the_survey self ;;
  match metadata s !! "EM Dataset" with
  | Some (PDict d) => ret d
  | Some _ => raise TypeError "metadata['EM Dataset'] is not subscriptable"
  | None => raise KeyError "EM Dataset"
  end.

(** An assignment or deletion inside [self.metadata["EM Dataset"]]: the
    dictionary is changed in place. *)
Definition set_em_dataset (self : uuid) (d : gmap string pyval)
  : M workspace unit :=
  s <- the_survey self ;;
  set_survey self (with_metadata s (<["EM Dataset" := PDict d]> (metadata s))).

(** [len(x)]. *)
Definition py_len (x : pyval) : M workspace nat :=
  match x with
  | PList l => ret (length l)
  | PStr s => ret (String.length s)
  | PDict d => ret (size d)
  | _ => raise TypeError "object has no len()"
  end.

(** Truth value of [x], as [not x] tests it. *)
Definition truthy (x : pyval) : bool :=
  match x with
  | PNone => false
  | PStr s => negb (bool_decide (s = ""))
  | PFloat q => negb (Qeq_bool q 0)
  | PList l => negb (bool_decide (length l = 0%nat))
  | PDict d => negb (bool_decide (size d = 0%nat))
  | PUid _ | PGroup _ => true
  end.

Definition is_str (nm : string) (x : pyval) : bool :=
  match x with PStr s => bool_decide (s = nm) | _ => false end.

Fixpoint is_prefix (p s : string) : bool :=
  match p, s with
  | EmptyString, _ => true
  | String a p', String b s' => Ascii.eqb a b && is_prefix p' s'
  | String _ _, EmptyString => false
  end.

Fixpoint is_substring (p s : string) : bool :=
  is_prefix p s ||
  match s with
  | EmptyString => false
  | String _ s' => is_substring p s'
  end.

(** [nm in container] for a string [nm]. *)
Definition py_contains (container : pyval) (nm : string) : M workspace bool :=
  match container with
  | PList l => ret (existsb (is_str nm) l)
  | PStr t => ret (is_substring nm t)
  | PDict d => ret (bool_decide (is_Some (d !! nm)))
  | _ => raise TypeError "argument is not iterable"
  end.

(** [BaseEMSurvey.channels] (getter), lines 147-153. *)
Definition channels (self : uuid) : M workspace pyval :=
  em <- em_dataset self ;;
  match em !! "Channels" with
  | Some c => ret c
  | None => raise KeyError "Channels"
  end.

Definition group_names (s : survey) : list string :=
  map pg_name (property_groups s).

(** Modelled from the spec: [ObjectBase.find_or_create_property_group] is
    outside the sources; it returns the group of the given name, creating
    it (without properties) when the survey has none. *)
Definition find_or_create_property_group (self : uuid) (nm : string)
  : M workspace PropertyGroup :=
  s <- the_survey self ;;
  match List.find (fun g => bool_decide (pg_name g = nm)) (property_groups s) with
  | Some g => ret g
  | None =>
      let g := mkGroup nm [] in
      set_survey self (mkSurvey (metadata s) (property_groups s ++ [g])
                                (children s) (receivers s) (transmitters s)) ;;;
      ret g
  end.

(** [BaseEMSurvey._edit_validate_property_groups], lines 222-254. *)
Definition _edit_validate_property_groups (self : uuid) (value : pyval)
  : M workspace unit :=
  (match value with
   | PNone =>
       em <- em_dataset self ;;
       set_em_dataset self (<["Property groups" := PList []]> em)
   | _ => ret tt
   end) ;;;
  let value := match value with PList l => l | v => [v] end in
  for_each value (fun val =>
    prop_group <-
      match val with
      | PGroup g => ret g
      | PStr nm =>
          s <- the_survey self ;;
          if bool_decide (nm ∈ group_names s)
          then find_or_create_property_group self nm
          else raise TypeError "Property group must be a list of existing PropertyGroup"
      | _ => raise TypeError "Property group must be a list of existing PropertyGroup"
      end ;;
    ch <- channels self ;;
    n <- py_len ch ;;
    if bool_decide (length (properties prop_group) = n) then
      em <- em_dataset self ;;
      match em !! "Property groups" with
      | None => raise KeyError "Property groups"
      | Some pgs =>
          known <- py_contains pgs (pg_name prop_group) ;;
          if known then ret tt
          else
            match pgs with
            | PList l =>
                set_em_dataset self
                  (<["Property groups" := PList (l ++ [PStr (pg_name prop_group)])]> em)
            | _ => raise AttributeError "object has no attribute 'append'"
            end
      end
    else raise ValueError "Number of properties differ from the number of 'channels'").

(** [key.replace("Waveform", "Discretization")] for the three keys that
    reach line 203. *)
Definition wave_key (key : string) : string :=
  if bool_decide (key = "Waveform") then "Discretization" else key.

(** Modelled from the spec: the [metadata] setter is "implemented on the
    child class", outside the sources (the one of [BaseEMSurvey] raises
    NotImplementedError); [edit_metadata] relies on it to "propagate the
    updated metadata to any paired receiver/transmitter entity". *)
Definition set_metadata (u : uuid) (m : gmap string pyval) : M workspace unit :=
  s <- the_survey u ;;
  set_survey u (with_metadata s m).

(** One turn of the loop of [edit_metadata], lines 199-214. *)
Definition edit_entry (self : uuid) (key : string) (value : pyval)
  : M workspace unit :=
  if bool_decide (key ∈ ["Discretization"; "Timing mark"; "Waveform"]) then
    em <- em_dataset self ;;
    (if bool_decide (is_Some (em !! "Waveform")) then ret tt
     else set_em_dataset self (<["Waveform" := PDict ∅]> em)) ;;;
    em <- em_dataset self ;;
    match em !! "Waveform" with
    | Some (PDict w) =>
        set_em_dataset self
          (<["Waveform" := PDict (<[wave_key key := value]> w)]> em)
    | Some _ => raise TypeError "object does not support item assignment"
    | None => raise KeyError "Waveform"
    end
  else if bool_decide (key = "Property groups") then
    _edit_validate_property_groups self value
  else
    match value with
    | PNone =>
        em <- em_dataset self ;;
        if bool_decide (is_Some (em !! key))
        then set_em_dataset self (delete key em) else ret tt
    | _ =>
        em <- em_dataset self ;;
        set_em_dataset self (<[key := value]> em)
    end.

(** Lines 216-220: hand the metadata to a paired entity, when there is
    one. *)
Definition propagate (self : uuid) (paired : survey -> option uuid)
  : M workspace unit :=
  s <- the_survey self ;;
  match paired s with
  | Some r => s <- the_survey self ;; set_metadata r (metadata s)
  | None => ret tt
  end.

(** [BaseEMSurvey.edit_metadata], lines 191-220. *)
Definition edit_metadata (self : uuid) (entries : list (string * pyval))
  : M workspace unit :=
  for_each entries (fun kv => edit_entry self (fst kv) (snd kv)) ;;;
  propagate self receivers ;;;
  propagate self transmitters.

(** An entry of a component given as a list: a data entity, or any other
    object. *)
Inductive entry :=
| EntData (u : uuid)
| EntOther.

(** The value given for a channel of a component given as a dictionary:
    a dictionary of attributes, or any other object. *)
Inductive channel_attr :=
| AttrDict
| AttrOther.

(** A component block. *)
Inductive component_block :=
| BlockList (l : list entry)
| BlockDict (d : list (string * channel_attr))
| BlockOther.

(** The argument [data]: a dictionary (its items in order), or not. *)
Inductive components_arg :=
| Components (items : list (string * component_block))
| NotADict.

(** [isinstance(entry, FloatData)]. *)
Definition is_float_data (ws : workspace) (e : entry) : bool :=
  match e with
  | EntData u => from_option d_is_float false (data ws !! u)
  | EntOther => false
  end.

(** [entry.parent == self], for an entry that is a data entity. *)
Definition has_parent (ws : workspace) (self : uuid) (e : entry) : bool :=
  match e with
  | EntData u => from_option (fun d => bool_decide (d_parent d = self)) false
                             (data ws !! u)
  | EntOther => false
  end.

Definition entry_uid (e : entry) : list uuid :=
  match e with EntData u => [u] | EntOther => [] end.

(** Modelled from the spec: [ObjectBase.add_data] is outside the sources;
    for a mapping of one name to an attribute dictionary it constructs a
    new Data child of the survey. *)
Definition add_data (self : uuid) (nm : string) : M workspace uuid :=
  s <- the_survey self ;;
  ws <- get ;;
  let u := next_uid ws in
  put (mkWorkspace
         (<[self := mkSurvey (metadata s) (property_groups s)
                             (children s ++ [u]) (receivers s)
                             (transmitters s)]> (surveys ws))
         (<[u := mkDataEntity self nm true]> (data ws))
         (N.succ u) (finalized ws)) ;;;
  ret u.

(** Modelled from the spec: [ObjectBase.add_data_to_group] is outside the
    sources; it "creates/updates a PropertyGroup" of the given name with
    the given data as properties. *)
Definition add_data_to_group (self : uuid) (data_list : list uuid)
    (nm : string) : M workspace PropertyGroup :=
  g <- find_or_create_property_group self nm ;;
  s <- the_survey self ;;
  let g' := mkGroup nm (properties g ++ data_list) in
  set_survey self
    (mkSurvey (metadata s)
       (map (fun h => if bool_decide (pg_name h = nm) then g' else h)
            (property_groups s))
       (children s) (receivers s) (transmitters s)) ;;;
  ret g'.

(** Modelled from the spec: [Workspace.finalize] is outside the sources;
    it "flushes all pending writes". *)
Definition finalize : M workspace unit :=
  modify (fun ws => mkWorkspace (surveys ws) (data ws) (next_uid ws)
                                (S (finalized ws))).

Definition msg_channel_attr : string :=
  "Given value to data should of type dict".

(** Lines 131-138: the data of a component given as a dictionary. *)
Fixpoint create_channels (self : uuid) (items : list (string * channel_attr))
  : M workspace (list uuid) :=
  match items with
  | [] => ret []
  | (channel, attr) :: items' =>
      match attr with
      | AttrOther => raise TypeError msg_channel_attr
      | AttrDict =>
          u <- add_data self channel ;;
          us <- create_channels self items' ;;
          ret (u :: us)
      end
  end.

Definition block_len (b : component_block) : nat :=
  match b with
  | BlockList l => length l
  | BlockDict d => length d
  | BlockOther => 0
  end.

(** Lines 122-138: the data entities of the component. *)
Definition component_data (self : uuid) (block : component_block)
  : M workspace (list uuid) :=
  match block with
  | BlockList l =>
      ws <- get ;;
      if forallb (has_parent ws self) l then ret (l ≫= entry_uid)
      else raise AssertionError "must contain FloatData belonging to the target survey"
  | BlockDict d => create_channels self d
  | BlockOther => ret []
  end.

(** Lines 140-141: the group of the component and its entry in the
    metadata. *)
Definition bind_group (self : uuid) (nm : string) (data_list : list uuid)
  : M workspace PropertyGroup :=
  prop_group <- add_data_to_group self data_list nm ;;
  edit_metadata self [("Property groups", PGroup prop_group)] ;;;
  ret prop_group.

Definition msg_channels : string :=
  "The 'channels' attribute of an EMSurvey class must be set".
Definition msg_not_a_dict : string :=
  "Input data must be nested dictionaries of components and channels".
Definition msg_duplicate : string :=
  "PropertyGroup named already exists on the survey entity".
Definition msg_component_type : string :=
  "List of values provided for component must be a list of FloatData or dict".
Definition msg_channel_count : string :=
  "The number of channel values provided must be of len(channels)".

(** One turn of the loop of [add_component_data], lines 98-142. *)
Definition add_component (self : uuid) (nm : string) (block : component_block)
  : M workspace PropertyGroup :=
  s <- the_survey self ;;
  ws <- get ;;
  if bool_decide (nm ∈ group_names s) then raise ValueError msg_duplicate
  else if match block with
          | BlockOther => true
          | BlockList l => negb (forallb (is_float_data ws) l)
          | BlockDict _ => false
          end then
    raise TypeError msg_component_type
  else
    ch <- channels self ;;
    n <- py_len ch ;;
    if bool_decide (block_len block = n) then
      data_list <- component_data self block ;;
      bind_group self nm data_list
    else raise ValueError msg_channel_count.

(** The loop of lines 97-142, collecting the groups. *)
Fixpoint add_components (self : uuid) (items : list (string * component_block))
  : M workspace (list PropertyGroup) :=
  match items with
  | [] => ret []
  | (nm, block) :: items' =>
      g <- add_component self nm block ;;
      gs <- add_components self items' ;;
      ret (g :: gs)
  end.

(** [BaseEMSurvey.add_component_data], lines 42-145. *)
Definition add_component_data (self : uuid) (data : components_arg)
  : M workspace (list PropertyGroup) :=
  ch <- channels self ;;
  if negb (truthy ch) then raise AttributeError msg_channels
  else
    match data with
    | NotADict => raise TypeError msg_not_a_dict
    | Components items =>
        prop_groups <- add_components self items ;;
        finalize ;;;
        ret prop_groups
    end.

(** The validation errors of [add_component_data], which are the errors
    of its [raise] statements (lines 87-137): channels unset, the argument
    or a component of the wrong type, a group name in use, a wrong number
    of channels, and channel attributes that are not a dictionary. *)
Definition validation_error (e : exn) : Prop :=
  exn_site e ∈ [msg_channels; msg_not_a_dict; msg_duplicate;
                msg_component_type; msg_channel_count; msg_channel_attr].

(** [self.channels] of a survey record, read without the workspace. *)
Definition channels_of (s : survey) : option pyval :=
  match metadata s !! "EM Dataset" with
  | Some (PDict em) => em !! "Channels"
  | _ => None
  end.

(** The metadata "Property groups" of a survey, when it is a list. *)
Definition metadata_groups (s : survey) : option (list pyval) :=
  match metadata s !! "EM Dataset" with
  | Some (PDict em) =>
      match em !! "Property groups" with
      | Some (PList l) => Some l
      | _ => None
      end
  | _ => None
  end.

(** A receivers survey (10) with channels [1.0, 2.0] paired with a
    transmitters survey (11), and three float data children of it. *)
Definition em0 : gmap string pyval :=
  <["Channels" := PList [PFloat 1; PFloat 2]]>
  (<["Property groups" := PList []]>
  (<["Unit" := PStr "Milliseconds (ms)"]> ∅)).

Definition rx0 : survey :=
  mkSurvey (<["EM Dataset" := PDict em0]> ∅) [] [21; 22; 23]%N None (Some 11%N).

Definition tx0 : survey :=
  mkSurvey (<["EM Dataset" := PDict em0]> ∅) [] [] (Some 10%N) None.

Definition survey_ws : workspace :=
  mkWorkspace (<[10%N := rx0]> (<[11%N := tx0]> ∅))
              (<[21%N := mkDataEntity 10 "d1" true]>
               (<[22%N := mkDataEntity 10 "d2" true]>
                (<[23%N := mkDataEntity 10 "d3" true]> ∅)))
              30%N 0.

Definition component_A : components_arg :=
  Components [("A", BlockList [EntData 21; EntData 22])].

Definition components_AB : components_arg :=
  Components [("A", BlockList [EntData 21; EntData 22]);
              ("B", BlockList [EntData 23])].


Definition unit_entries : list (string * pyval) :=
  [("Unit", PStr "Seconds (s)"); ("Input type", PNone);
   ("Timing mark", PFloat 0)].

(** What one turn of [add_component_data] keeps of the survey [self]: its
    group names and its channels. *)
Definition keeps (self : uuid) (ws ws' : workspace) : Prop :=
  ∀ s, surveys ws !! self = Some s →
    ∃ s', surveys ws' !! self = Some s'
      ∧ group_names s ⊆ group_names s'
      ∧ channels_of s' = channels_of s.

(** A call is sound when it keeps the names and the channels where it
    returns, and raises no validation error. *)
Definition sound (self : uuid) {A} (m : M workspace A) : Prop :=
  ∀ ws, match m ws with
        | Done _ ws' => keeps self ws ws'
        | Raised e _ => ¬ validation_error e
        end.

(** Keys that [edit_metadata] stores or deletes as they are. *)
Definition plain_key (key : string) : Prop :=
  key ∉ ["Discretization"; "Timing mark"; "Waveform"; "Property groups"].

(** A survey with an "EM Dataset" dictionary whose paired entities are
    registered. *)
Definition paired_ok (self : uuid) (ws : workspace) : Prop :=
  ∃ s em, surveys ws !! self = Some s
    ∧ metadata s !! "EM Dataset" = Some (PDict em)
    ∧ (∀ r, receivers s = Some r → is_Some (surveys ws !! r))
    ∧ (∀ t, transmitters s = Some t → is_Some (surveys ws !! t)).

(** What may be assigned to [channels]: a list, a numpy array (given by
    the list that [tolist()] makes of it), or anything else. *)
Inductive channels_arg :=
| ChannelsList (l : list pyval)
| ChannelsArray (tolist : list pyval)
| ChannelsOther.

Definition is_float (x : pyval) : bool :=
  match x with PFloat _ => true | _ => false end.

(** [BaseEMSurvey.channels] (setter), lines 155-167. *)
Definition set_channels (self : uuid) (values : channels_arg)
  : M workspace unit :=
  match values with
  | ChannelsList l | ChannelsArray l =>
      if forallb is_float l then edit_metadata self [("Channels", PList l)]
      else raise TypeError "Values provided as 'channels' must be a list of float"
  | ChannelsOther =>
      raise TypeError "Values provided as 'channels' must be a list of float"
  end.

(** [BaseEMSurvey.unit] (getter), lines 312-320. *)
Definition unit_of (self : uuid) : M workspace (option pyval) :=
  em <- em_dataset self ;;
  if bool_decide (is_Some (em !! "Unit")) then
    em <- em_dataset self ;; ret (em !! "Unit")
  else ret None.

(** [BaseEMSurvey.unit] (setter), lines 322-327. [default_units] is the
    property of that name, [None] on the base class and a list of
    accepted units on the classes that override it. *)
Definition set_unit (default_units : option (list string)) (self : uuid)
    (value : string) : M workspace unit :=
  match default_units with
  | None => ret tt
  | Some units =>
      if bool_decide (value ∈ units)
      then edit_metadata self [("Unit", PStr value)]
      else raise ValueError "Input 'unit' must be one of"
  end.

(** The "EM Dataset" dictionary of a survey record, when it is one. *)
Definition em_of (s : survey) : option (gmap string pyval) :=
  match metadata s !! "EM Dataset" with
  | Some (PDict em) => Some em
  | _ => None
  end.

(** What [edit_metadata] makes of "EM Dataset" for a plain key. *)
Definition plain_edit (key : string) (value : pyval)
    (em : gmap string pyval) : gmap string pyval :=
  match value with
  | PNone => delete key em
  | _ => <[key := value]> em
  end.

(** What [edit_metadata] makes of "EM Dataset" for one of the keys
    "Discretization", "Timing mark" and "Waveform", when the entry
    "Waveform" is absent or a dictionary. *)
Definition waveform_edit (key : string) (value : pyval)
    (em : gmap string pyval) : option (gmap string pyval) :=
  match em !! "Waveform" with
  | None => Some (<["Waveform" := PDict (<[wave_key key := value]> ∅)]> em)
  | Some (PDict w) => Some (<["Waveform" := PDict (<[wave_key key := value]> w)]> em)
  | Some _ => None
  end.

(** [s] with another "EM Dataset" dictionary. *)
Definition with_em (s : survey) (em : gmap string pyval) : survey :=
  with_metadata s (<["EM Dataset" := PDict em]> (metadata s)).

(** [ws] with the record [s] for the survey [self]. *)
Definition put_survey (ws : workspace) (self : uuid) (s : survey) : workspace :=
  mkWorkspace (<[self := s]> (surveys ws)) (data ws) (next_uid ws)
              (finalized ws).

(** The group names recorded in the metadata of [self] are distinct. *)
Definition names_distinct (self : uuid) (ws : workspace) : Prop :=
  ∀ s l, surveys ws !! self = Some s → metadata_groups s = Some l → NoDup l.

(** A call keeps the recorded group names distinct, whether it returns
    or raises. *)
Definition keeps_distinct (self : uuid) {A} (m : M workspace A) : Prop :=
  ∀ ws, names_distinct self ws → names_distinct self (final_state (m ws)).

(** A call leaves the record of the survey [self] as it is, whether it
    returns or raises. *)
Definition keeps_record (self : uuid) {A} (m : M workspace A) : Prop :=
  ∀ ws, surveys (final_state (m ws)) !! self = surveys ws !! self.

End EMSurvey.

(** ** Ground TEM surveys: transmitter identifiers of a copied pair *)

Module GroundTEM.
Local Open Scope Z_scope.

(** [isinstance(self, GroundTEMReceiversLargeLoop)], or the transmitters
    class. *)
Inductive survey_kind := Receivers | Transmitters.

(** [np.unique]: the distinct values, in increasing order. *)
Definition unique (l : list Z) : list Z := merge_sort Z.le (remove_dups l).

(** [np.intersect1d]: the values found in both arrays, distinct and in
    increasing order. *)
Definition intersect1d (a b : list Z) : list Z :=
  unique (filter (fun v => v ∈ b) a).

(** [values[mask]] for a boolean mask; numpy raises IndexError when the
    lengths differ. *)
Definition select {A} (mask : list bool) (l : list A) : option (list A) :=
  if bool_decide (length mask = length l)
  then Some (map snd (filter (fun bx => fst bx = true) (zip mask l)))
  else None.

(** [np.all(mask[self.cells], axis=1)]: a cell survives when both of its
    vertices do. The indices of a cell are positions of vertices. *)
Definition cells_mask (mask : list bool) (cells : list (nat * nat)) : list bool :=
  map (fun c => default false (mask !! fst c) && default false (mask !! snd c))
      cells.

(** Lines 92-100: the identifiers the copy keeps. The identifiers of a
    receivers survey are per vertex, those of a transmitters survey per
    cell. *)
Definition surviving (kind : survey_kind) (mask : option (list bool))
    (cells : list (nat * nat)) (tx_values : list Z) : option (list Z) :=
  match mask with
  | Some m =>
      match kind with
      | Receivers => select m tx_values
      | Transmitters => select (cells_mask m cells) tx_values
      end
  | None => Some tx_values
  end.

Fixpoint enumerate_from {A} (i : nat) (l : list A) : list (nat * A) :=
  match l with
  | [] => []
  | x :: l' => (i, x) :: enumerate_from (S i) l'
  end.

(** [{val: ind for ind, val in enumerate(...)}]: a later item replaces an
    earlier one with the same key. *)
Definition dict_of (items : list (nat * Z)) : gmap Z Z :=
  fold_left (fun m iv => <[snd iv := Z.of_nat (fst iv)]> m) items ∅.

(** Lines 157-164, for the identifiers [tx] of the copied transmitters. *)
Definition value_map_of (tx : list Z) : gmap Z Z :=
  dict_of (enumerate_from 0 (0 :: unique tx)).

(** [np.asarray([value_map[val] for val in values])]. *)
Definition reindex (vm : gmap Z Z) (values : list Z) : option (list Z) :=
  mapM (fun v => vm !! v) values.

(** Lines 165-168: [{val: labels[val] for val in value_map.values()}]. *)
Definition relabel (vm : gmap Z Z) (labels : gmap Z string)
  : option (gmap Z string) :=
  list_to_map <$>
    mapM (fun kv => (fun s => (snd kv, s)) <$> labels !! snd kv)
         (map_to_list vm).

(** The copied pair: the identifiers and the value map held by the
    [tx_id_property] of [new_entity] (absent when it has none), and the
    identifiers of [new_complement] once it exists. *)
Record pair := mkPair {
  entity_values : option (list Z);
  entity_value_map : gmap Z string;
  complement_values : option (list Z);
}.

Definition set_entity_values (v : list Z) : M pair unit :=
  modify (fun p => mkPair (Some v) (entity_value_map p) (complement_values p)).
Definition set_entity_value_map (m : gmap Z string) : M pair unit :=
  modify (fun p => mkPair (entity_values p) m (complement_values p)).
Definition set_complement_values (v : list Z) : M pair unit :=
  modify (fun p => mkPair (entity_values p) (entity_value_map p) (Some v)).

(** Modelled from the spec: [new_entity.transmitters] on lines 161 and
    166. For a receivers survey line 146 has just stored the copied
    complement there. For a transmitters survey the accessor is inherited
    from [BaseTEMSurvey], outside the sources; the transmitters of "the
    copied receiver and its copied transmitter complement" is then the
    copied entity itself. *)
Definition transmitters_values (kind : survey_kind)
    (new_entity new_complement : list Z) : list Z :=
  match kind with
  | Receivers => new_complement
  | Transmitters => new_entity
  end.

(** [BaseGroundTEM.copy], lines 108-177, on the identifiers.
    - [complement] holds [complement.tx_id_property.values] when the
      guard of lines 110-114 passes;
    - [copied] holds the identifiers that the copy of the complement made
      on line 136 already carries, if any (line 151);
    - [labels] is [new_entity.transmitters.tx_id_property.value_map.map]. *)
Definition copy_tx_ids (kind : survey_kind) (labels : gmap Z string)
    (complement : option (list Z)) (copied : option (list Z)) : M pair unit :=
  p <- get ;;
  match entity_values p, complement with
  | Some ent, Some comp =>
      let intersect := intersect1d ent comp in
      let tx_ids := filter (fun v => v ∈ intersect) comp in
      match copied with
      | Some c => set_complement_values c
      | None =>
          (* new_complement.tx_id_property = tx_ids *)
          set_complement_values tx_ids ;;;
          let value_map := value_map_of (transmitters_values kind ent tx_ids) in
          match relabel value_map labels with
          | None => raise KeyError "value_map.map[val]"
          | Some new_map =>
              match reindex value_map tx_ids with
              | None => raise KeyError "value_map[val] (complement)"
              | Some c' =>
                  set_complement_values c' ;;;
                  match reindex value_map ent with
                  | None => raise KeyError "value_map[val] (entity)"
                  | Some e' =>
                      set_entity_values e' ;;;
                      set_entity_value_map new_map
                  end
              end
          end
      end
  | _, _ => ret tt
  end.

(** [astype(np.int32)]: the integer, wrapped into 32 bits. *)
Definition int32 (z : Z) : Z := (z + 2 ^ 31) mod 2 ^ 32 - 2 ^ 31.

(** Lines 246-249: the value map the [tx_id_property] setter builds for
    an array of identifiers when no paired entity provides one. *)
Definition default_value_map (values : list Z) : gmap Z string :=
  <[0 := "Unknown"]>
    (list_to_map (map (fun i => (i, "Loop " +:+ pretty i))
                      (unique (map int32 values)))).

(** Lines 236-250 of the [tx_id_property] setter, for an array [value]:
    the new property takes the type, and so the value map, of the
    property of the complement when the complement has one, and a value
    map built from the array otherwise. *)
Definition setter_value_map (complement_map : option (gmap Z string))
    (value : list Z) : gmap Z string :=
  match complement_map with
  | Some m => m
  | None => default_value_map value
  end.

(** The copy of a receivers survey as [copy] runs it on the identifiers
    [ent] that survive the mask and the identifiers [comp] of its
    transmitters, lines 100-177. Line 100 hands [ent] to the setter of the
    copy, which has no complement yet (lines 62-83 make the copy without
    its transmitters and its metadata). Line 146 makes the copied
    transmitters the transmitters of the copy, and line 154 hands [tx_ids]
    to their setter: their complement is the copy when [paired], which is
    a matter of the [transmitters] setter of line 146, outside the
    sources. *)
Definition copy_receivers (paired : bool) (comp ent : list Z) : M pair unit :=
  let emap := setter_value_map None ent in
  let tx_ids := filter (fun v => v ∈ intersect1d ent comp) comp in
  let labels := setter_value_map (if paired then Some emap else None) tx_ids in
  put (mkPair (Some ent) emap None) ;;;
  copy_tx_ids Receivers labels (Some comp) None.

(** The loops 0..3 of the specification's scenario. *)
Definition loops : gmap Z string := default_value_map [0; 1; 2; 3].

(** A pair before the copy: no identifiers yet. *)
Definition no_ids : pair := mkPair None ∅ None.

End GroundTEM.

(** * Properties *)

Local Close Scope string_scope.

(** Unfold the monadic operations of a call and compute. *)
Ltac step := unfold bind, get, put, modify, ret, raise; cbn.

Module TreeProps.
Import Tree.

Lemma occurrences_elem (l : list N) (e : N) :
  e ∈ l ↔ (1 ≤ length (filter (fun x => x = e) l))%nat.
Proof.
  induction l as [|x l IH]; simpl.
  - split; [inversion 1 | lia].
  - rewrite filter_cons. destruct (decide (x = e)) as [->|Hne]; simpl.
    + split; [lia | intros _; left].
    + rewrite elem_of_cons, IH. naive_solver.
Qed.

Lemma occurrences_snoc_fresh (l : list N) (e : N) :
  e ∉ l → length (filter (fun x => x = e) (l ++ [e])) = 1%nat.
Proof.
  intros Hn. rewrite filter_app, length_app.
  assert (length (filter (fun x => x = e) l) = 0)%nat as ->.
  { destruct (length (filter (fun x => x = e) l)) eqn:E; [done|].
    exfalso. apply Hn, occurrences_elem. lia. }
  rewrite filter_cons, decide_True by done. done.
Qed.

(** C1 (amended). When the parent resolves to an entry of the tree and the
    entity has an entry, [set_parent] returns; afterwards the tree records
    the parent's uid as the entity's parent, the entity's uid is in the
    parent's children list, exactly once if it was there at most once,
    and the uid is listed under no entry where it was not listed before. *)
Theorem set_parent_links (ws : workspace) (e : N) (p : parent_arg) (u : N)
    (ne nu : node) :
  resolve_parent p ws = Done u ws →
  tree ws !! e = Some ne →
  tree ws !! u = Some nu →
  ∃ ws', set_parent e p ws = Done tt ws'
    ∧ parent_of ws' e = Some u
    ∧ listed_under ws' e u
    ∧ occurrences ws' e u = Nat.max 1 (occurrences ws e u)
    ∧ (∀ q, q ≠ u → listed_under ws' e q → listed_under ws e q).
Proof.
  intros Hres He Hu.
  unfold set_parent, bind. rewrite Hres. cbn. rewrite He. cbn.
  destruct (decide (e = u)) as [->|Hne].
  - rewrite lookup_insert_eq. assert (ne = nu) as -> by congruence. cbn.
    case_bool_decide as Hin; cbn.
    + eexists; split; [reflexivity|].
      unfold parent_of, listed_under, occurrences; cbn.
      rewrite lookup_insert_eq, Hu; cbn.
      repeat split; eauto.
      * apply occurrences_elem in Hin. lia.
      * intros q Hq (n & Hl & Hm). rewrite lookup_insert_ne in Hl by done. eauto.
    + eexists; split; [reflexivity|].
      unfold parent_of, listed_under, occurrences; cbn.
      rewrite lookup_insert_eq, Hu; cbn.
      repeat split.
      * eexists; split; [reflexivity|]. cbn. set_solver.
      * rewrite occurrences_snoc_fresh by done.
        destruct (length (filter (fun x => x = u) (children nu))) eqn:E; [done|].
        exfalso. apply Hin, occurrences_elem. lia.
      * intros q Hq (n & Hl & Hm). rewrite !lookup_insert_ne in Hl by done. eauto.
  - rewrite lookup_insert_ne by done. rewrite Hu. cbn.
    case_bool_decide as Hin; cbn.
    + eexists; split; [reflexivity|].
      unfold parent_of, listed_under, occurrences; cbn.
      rewrite lookup_insert_eq, lookup_insert_ne, Hu by done; cbn.
      repeat split; eauto.
      * apply occurrences_elem in Hin. lia.
      * intros q Hq (n & Hl & Hm).
        destruct (decide (q = e)) as [->|Hqe].
        -- rewrite lookup_insert_eq in Hl. simplify_eq. eauto.
        -- rewrite lookup_insert_ne in Hl by done. eauto.
    + eexists; split; [reflexivity|].
      unfold parent_of, listed_under, occurrences; cbn.
      rewrite lookup_insert_ne, !lookup_insert_eq, Hu by done; cbn.
      repeat split.
      * eexists; split; [reflexivity|]. cbn. set_solver.
      * rewrite occurrences_snoc_fresh by done.
        destruct (length (filter (fun x => x = e) (children nu))) eqn:E; [done|].
        exfalso. apply Hin, occurrences_elem. lia.
      * intros q Hq (n & Hl & Hm).
        rewrite lookup_insert_ne in Hl by done.
        destruct (decide (q = e)) as [->|Hqe].
        -- rewrite lookup_insert_eq in Hl. simplify_eq. eauto.
        -- rewrite lookup_insert_ne in Hl by done. eauto.
Qed.
Lemma set_parent_links_witness :
  ∃ ws', set_parent 4 (ByUid 3) tree_ws = Done tt ws'
    ∧ parent_of ws' 4 = Some 3%N
    ∧ listed_under ws' 4 3
    ∧ occurrences ws' 4 3 = Nat.max 1 (occurrences tree_ws 4 3)
    ∧ (∀ q, q ≠ 3%N → listed_under ws' 4 q → listed_under tree_ws 4 q).
Proof.
  apply (set_parent_links tree_ws 4 (ByUid 3) 3
           (Node (Some 2%N) []) (Node (Some 1%N) [])); reflexivity.
Defined.

(** C1, as stated, fails: moving the entity 4 from container 2 to
    container 3 leaves it in the children lists of both. *)
Lemma set_parent_keeps_prior_listing :
  parent_of tree_ws 4 = Some 2%N
  ∧ listed_under tree_ws 4 2
  ∧ ¬ listed_under tree_ws 4 3
  ∧ set_parent 4 (ByUid 3) tree_ws
    = Done tt (final_state (set_parent 4 (ByUid 3) tree_ws))
  ∧ parent_of (final_state (set_parent 4 (ByUid 3) tree_ws)) 4 = Some 3%N
  ∧ listed_under (final_state (set_parent 4 (ByUid 3) tree_ws)) 4 2
  ∧ listed_under (final_state (set_parent 4 (ByUid 3) tree_ws)) 4 3.
Proof.
  repeat split; try (vm_compute; reflexivity).
  - eexists. split; [vm_compute; reflexivity|]. apply list_elem_of_In. left. reflexivity.
  - intros (n & Hn & Hin). vm_compute in Hn. injection Hn as <-.
    by apply elem_of_nil in Hin.
  - eexists. split; [vm_compute; reflexivity|]. apply list_elem_of_In. left. reflexivity.
  - eexists. split; [vm_compute; reflexivity|]. apply list_elem_of_In. left. reflexivity.
Qed.

End TreeProps.

Module DataProps.
Import DataModel.

Lemma the_data_registered ws u d :
  data ws !! u = Some d → the_data u ws = Done d ws.
Proof. intros H. unfold the_data. step. by rewrite H. Qed.

Lemma n_values_expected ws u d p o :
  data ws !! u = Some d → parent d = Some p → objects ws !! p = Some o →
  n_values u ws = Done (expected d o) ws.
Proof.
  intros Hd Hp Ho. unfold n_values, bind. rewrite (the_data_registered _ _ _ Hd).
  unfold expected, parent_count. step.
  destruct (_association d) as [[]|]; rewrite ?Hp; cbn; rewrite ?Ho; done.
Qed.

(** [n_values] only reads. *)
Lemma n_values_pure ws u r ws' :
  n_values u ws = Done r ws' → ws' = ws.
Proof.
  unfold n_values, the_data, parent_count. step.
  destruct (data ws !! u) as [d|]; [|done].
  destruct (_association d) as [[]|]; cbn;
    repeat (match goal with |- context [match ?x with _ => _ end] => destruct x end; cbn);
    congruence.
Qed.

(** C3 (amended). The [values] getter returns the cached array, null when
    none is cached, and leaves the workspace as it is: it neither reads
    [on_file] nor calls [fetch_array_attribute]. *)
Theorem values_getter_returns_cache ws u d :
  data ws !! u = Some d → values u ws = Done (_values d) ws.
Proof.
  intros Hd. unfold values, bind. by rewrite (the_data_registered _ _ _ Hd).
Qed.

Lemma values_getter_returns_cache_witness :
  values 7 ws_valued = Done (Some [10; 20; 30; 40]%Z) ws_valued.
Proof.
  apply (values_getter_returns_cache ws_valued 7
           (mkData FLOAT 7 "TMI" (Some 1%N) (Some VERTEX) true
                   (mkDataType 100 "TMI" FLOAT) (Some [10; 20; 30; 40]%Z))).
  vm_compute. reflexivity.
Defined.

(** C3, as stated, fails: with [on_file] true, nothing cached and the
    array in the store, the getter returns null where the specified
    getter returns the stored array. *)
Lemma values_getter_ignores_on_file :
  data ws_on_file !! 7%N = Some d_on_file
  ∧ _on_file d_on_file = true
  ∧ _values d_on_file = None
  ∧ fetch_array_attribute ws_on_file 7 "values" = Some [10; 20; 30; 40]%Z
  ∧ values 7 ws_on_file = Done None ws_on_file
  ∧ (∃ ws', values_as_specified 7 ws_on_file = Done (Some [10; 20; 30; 40]%Z) ws').
Proof.
  repeat split; try (vm_compute; reflexivity).
  eexists. vm_compute. reflexivity.
Qed.

Lemma set_values_cases ws u d k a :
  data ws !! u = Some d →
  n_values u ws = Done (Some k) ws →
  (length a ≠ k →
     ∃ site, set_values u a ws = Raised (Exn ShapeMismatch site) ws)
  ∧ (length a = k →
     ∃ ws' d', set_values u a ws = Done tt ws'
       ∧ data ws' !! u = Some d'
       ∧ _values d' = Some a ∧ _on_file d' = true
       ∧ _association d' = _association d ∧ parent d' = parent d
       ∧ objects ws' = objects ws
       ∧ (Some u, "values") ∈ dirty ws'
       ∧ fetch_array_attribute ws' u "values" = Some a).
Proof.
  intros Hd Hn. split; intros Hlen.
  { unfold set_values, bind. rewrite (the_data_registered _ _ _ Hd), Hn.
    rewrite bool_decide_eq_false_2 by done. eexists. reflexivity. }
  { unfold set_values, bind. rewrite (the_data_registered _ _ _ Hd), Hn.
    rewrite bool_decide_eq_true_2 by done.
    unfold set_data, update_attribute, the_data. step.
    rewrite !lookup_insert_eq. cbn. rewrite ?lookup_insert_eq.
    do 2 eexists. split; [reflexivity|]. cbn.
    rewrite ?lookup_insert_eq. unfold fetch_array_attribute; cbn.
    rewrite ?lookup_insert_eq. repeat split; try done.
    - set_solver.
    - rewrite bool_decide_eq_true_2 by done. apply lookup_insert_eq. }
Qed.


(** C6. Assigning an array whose length differs from [n_values] raises
    ShapeMismatch and leaves the workspace, hence the entity, unchanged;
    assigning one of the expected length returns, caches the array, calls
    [update_attribute] and sets [on_file]. The scenario of a VERTEX
    association on a parent with 4 vertices is the instance that follows. *)
Theorem set_values_checks_length ws u d k a :
  data ws !! u = Some d →
  n_values u ws = Done (Some k) ws →
  (length a ≠ k →
     ∃ site, set_values u a ws = Raised (Exn ShapeMismatch site) ws)
  ∧ (length a = k →
     ∃ ws' d', set_values u a ws = Done tt ws'
       ∧ data ws' !! u = Some d'
       ∧ _values d' = Some a ∧ _on_file d' = true
       ∧ (Some u, "values") ∈ dirty ws'
       ∧ fetch_array_attribute ws' u "values" = Some a).
Proof.
  intros Hd Hn. destruct (set_values_cases ws u d k a Hd Hn) as [H1 H2].
  split; [done|]. intros Hlen.
  destruct (H2 Hlen) as (ws' & d' & ? & ? & ? & ? & _ & _ & _ & ? & ?).
  by exists ws', d'.
Qed.

Lemma set_values_checks_length_witness :
  (∃ site, set_values 7 [1; 2; 3]%Z ws_vertex
           = Raised (Exn ShapeMismatch site) ws_vertex)
  ∧ (∃ ws' d', set_values 7 [10; 20; 30; 40]%Z ws_vertex = Done tt ws'
       ∧ data ws' !! 7%N = Some d'
       ∧ _values d' = Some [10; 20; 30; 40]%Z ∧ _on_file d' = true).
Proof.
  pose proof (set_values_checks_length ws_vertex 7
    (mkData FLOAT 7 "TMI" (Some 1%N) (Some VERTEX) false
            (mkDataType 100 "TMI" FLOAT) None) 4) as H.
  split.
  - apply (H [1; 2; 3]%Z); [vm_compute; reflexivity .. | cbn; lia].
  - destruct (H [10; 20; 30; 40]%Z) as [_ H2];
      [vm_compute; reflexivity .. |].
    destruct H2 as (ws' & d' & ? & ? & ? & ? & _); [reflexivity|].
    exists ws', d'. auto.
Defined.

(** C8 (amended). For a data entity whose parent is known, [n_values] is
    the parent's vertex, cell or face count for VERTEX, CELL or FACE, 1
    for OBJECT and null without association; and right after a successful
    assignment of values, their length is [n_values] whenever it is
    known. *)
Theorem n_values_by_association ws u d p o :
  data ws !! u = Some d → parent d = Some p → objects ws !! p = Some o →
  n_values u ws =
    Done (match _association d with
          | Some VERTEX => n_vertices o
          | Some CELL => n_cells o
          | Some FACE => n_faces o
          | Some OBJECT => Some 1%nat
          | None => None
          end) ws
  ∧ (∀ a ws', set_values u a ws = Done tt ws' →
       ∃ d', data ws' !! u = Some d' ∧ _values d' = Some a
         ∧ ∀ k, n_values u ws' = Done (Some k) ws' → length a = k).
Proof.
  intros Hd Hp Ho. split; [exact (n_values_expected _ _ _ _ _ Hd Hp Ho)|].
  intros a ws' Hset.
  pose proof (n_values_expected _ _ _ _ _ Hd Hp Ho) as Hn.
  destruct (expected d o) as [k|] eqn:Hk.
  - destruct (decide (length a = k)) as [Hlen|Hlen].
    + destruct (set_values_cases ws u d k a Hd Hn) as [_ H].
      destruct (H Hlen) as (ws2 & d' & Hs & Hd' & Hv & _ & Ha & Hp' & Ho' & _).
      rewrite Hs in Hset. injection Hset as <-.
      exists d'. repeat split; try done.
      intros k' Hk'.
      assert (objects ws2 !! p = Some o) as Ho2 by (by rewrite Ho').
      rewrite Hp in Hp'.
      rewrite (n_values_expected _ _ _ _ _ Hd' Hp' Ho2) in Hk'.
      unfold expected in Hk', Hk. rewrite Ha in Hk'. congruence.
    + destruct (set_values_cases ws u d k a Hd Hn) as [H _].
      destruct (H Hlen) as [site Hs]. congruence.
  - revert Hset. unfold set_values, bind.
    rewrite (the_data_registered _ _ _ Hd), Hn.
    unfold set_data, update_attribute, the_data. step.
    rewrite !lookup_insert_eq. cbn. rewrite ?lookup_insert_eq.
    intros [= <-]. cbn. rewrite lookup_insert_eq.
    eexists. repeat split; try done. cbn.
    intros k Hk'.
    match type of Hk' with
    | n_values u ?w = _ =>
        assert (data w !! u = Some (mkData (cls_primitive_type d) (uid d)
                  (name d) (parent d) (_association d) true (_entity_type d)
                  (Some a))) as H1 by apply lookup_insert_eq;
        rewrite (n_values_expected w u _ p o H1 Hp Ho) in Hk'
    end.
    injection Hk' as Hk'. unfold expected in *; cbn in *; congruence.
Qed.

Lemma n_values_by_association_witness :
  n_values 7 ws_vertex = Done (Some 4%nat) ws_vertex.
Proof.
  apply (n_values_by_association ws_vertex 7
    (mkData FLOAT 7 "TMI" (Some 1%N) (Some VERTEX) false
            (mkDataType 100 "TMI" FLOAT) None)
    1 (mkObject (Some 4%nat) (Some 2%nat) None)); vm_compute; reflexivity.
Defined.

(** C8, as stated, fails: after the association of an entity holding
    four values is changed from the vertices to the cells of a parent
    with two cells, both the values and [n_values] are known and the
    lengths differ. *)
Lemma association_change_breaks_length :
  let d := mkData FLOAT 7 "TMI" (Some 1%N) (Some CELL) true
                  (mkDataType 100 "TMI" FLOAT) (Some [10; 20; 30; 40]%Z) in
  set_association 7 (AssocEnum CELL) ws_valued = Done tt ws_cell
  ∧ data ws_cell !! 7%N = Some d
  ∧ values 7 ws_cell = Done (Some [10; 20; 30; 40]%Z) ws_cell
  ∧ n_values 7 ws_cell = Done (Some 2%nat) ws_cell
  ∧ length [10; 20; 30; 40]%Z ≠ 2%nat.
Proof. cbn zeta. repeat split; try (vm_compute; reflexivity). cbn; lia. Qed.

(** What the renaming of line 52 makes of the registered entities. *)
Lemma rename_type_lookup tu nm ws v :
  data (final_state (rename_type tu nm ws)) !! v
  = (fun d => if bool_decide (type_uid (_entity_type d) = tu)
              then with_type_name d nm else d) <$> data ws !! v.
Proof. unfold rename_type, modify. cbn. by rewrite lookup_fmap. Qed.

(** The constructor, once the descriptor has passed the assertions: the
    state before the registration, and the two outcomes of the latter. *)
Lemma data_init_unfold cls t kw fresh ws :
  primitive_type t = cls →
  ∃ ws1,
    (∀ v, data ws1 !! v
          = (fun d => if bool_decide (type_name t = "Entity"%string)
                         && bool_decide (type_uid (_entity_type d) = type_uid t)
                      then with_type_name d (kw_name kw) else d)
            <$> data ws !! v)
    ∧ objects ws1 = objects ws
    ∧ store ws1 = store ws
    ∧ dirty ws1 = dirty ws ++ [(None, "entity_type"%string)]
    ∧ data_init cls (Some t) kw fresh ws
      = match data ws !! default fresh (kw_uid kw) with
        | Some _ => Raised (Exn IdentityError "DuplicateUUID") ws1
        | None =>
            Done (default fresh (kw_uid kw))
              (mkWorkspace
                 (<[default fresh (kw_uid kw) :=
                      mkData cls (default fresh (kw_uid kw)) (kw_name kw)
                        (kw_parent kw) None false
                        (if bool_decide (type_name t = "Entity"%string)
                         then mkDataType (type_uid t) (kw_name kw)
                                         (primitive_type t)
                         else t) None]> (data ws1))
                 (objects ws1) (store ws1) (dirty ws1))
        end.
Proof.
  intros Hprim. unfold data_init.
  rewrite (bool_decide_eq_true_2 (primitive_type t = cls)) by done.
  unfold entity_init, update_attribute, _register_data, set_data.
  destruct (bool_decide (type_name t = "Entity"%string)) eqn:Hname.
  - exists (final_state (rename_type (type_uid t) (kw_name kw)
              (final_state (update_attribute None "entity_type" ws)))).
    split; [|split; [done|split; [done|split; [done|]]]].
    + intros v. by rewrite rename_type_lookup.
    + unfold rename_type, update_attribute. step. rewrite lookup_fmap.
      by destruct (data ws !! default fresh (kw_uid kw)).
  - exists (final_state (update_attribute None "entity_type" ws)).
    split; [|split; [done|split; [done|split; [done|]]]].
    + intros v. cbn. by destruct (data ws !! v).
    + unfold update_attribute. step.
      by destruct (data ws !! default fresh (kw_uid kw)).
Qed.

(** C10 (amended). [Data.__init__] fails an assertion, changing nothing,
    on a null [data_type] and on one whose primitive type is not the one
    of the class; an instance it returns carries a descriptor of the
    primitive type of its class; and it returns on a matching descriptor
    with a usable uid. *)
Theorem data_init_primitive_type cls dt kw fresh ws :
  (dt = None →
     ∃ site, data_init cls dt kw fresh ws = Raised (Exn AssertionError site) ws)
  ∧ (∀ t, dt = Some t → primitive_type t ≠ cls →
     ∃ site, data_init cls dt kw fresh ws = Raised (Exn AssertionError site) ws)
  ∧ (∀ u ws', data_init cls dt kw fresh ws = Done u ws' →
     ∃ d t, dt = Some t ∧ data ws' !! u = Some d
       ∧ cls_primitive_type d = cls
       ∧ primitive_type (_entity_type d) = primitive_type t
       ∧ primitive_type (_entity_type d) = cls_primitive_type d)
  ∧ (∀ t, dt = Some t → primitive_type t = cls →
     kw_uid kw ≠ Some 0%N →
     data ws !! default fresh (kw_uid kw) = None →
     ∃ ws', data_init cls dt kw fresh ws = Done (default fresh (kw_uid kw)) ws').
Proof.
  repeat split.
  - intros ->. eexists. reflexivity.
  - intros t -> Hne. cbn. rewrite bool_decide_eq_false_2 by done.
    eexists. reflexivity.
  - intros u ws'. destruct dt as [t|]; [|done].
    destruct (decide (primitive_type t = cls)) as [Hprim|Hne].
    2: { cbn. by rewrite bool_decide_eq_false_2. }
    destruct (data_init_unfold cls t kw fresh ws Hprim) as (ws1 & _ & _ & _ & _ & ->).
    destruct (data ws !! default fresh (kw_uid kw)); [done|].
    intros [= <- <-]. cbn [data]. rewrite lookup_insert_eq.
    eexists _, t. repeat split; cbn; by case_bool_decide.
  - intros t -> Hprim Hnil Hfree.
    destruct (data_init_unfold cls t kw fresh ws Hprim) as (ws1 & _ & _ & _ & _ & ->).
    rewrite Hfree. by eexists.
Qed.

Lemma data_init_primitive_type_witness :
  ∃ ws', data_init FLOAT (Some float_type)
           (mkKwargs "TMI" (Some 7%N) (Some 1%N)) 9%N ws_empty = Done 7%N ws'.
Proof.
  destruct (data_init_primitive_type FLOAT (Some float_type)
              (mkKwargs "TMI" (Some 7%N) (Some 1%N)) 9%N ws_empty)
    as (_ & _ & _ & H).
  apply (H float_type); [reflexivity | reflexivity | cbn; congruence | reflexivity].
Defined.

(** C10, as stated, fails: the [entity_type] setter accepts a descriptor
    of another primitive type on a constructed instance. *)
Lemma entity_type_setter_unchecked :
  data_init FLOAT (Some float_type) (mkKwargs "TMI" (Some 7%N) (Some 1%N))
            9%N ws_empty = Done 7%N ws_float
  ∧ set_entity_type 7 text_type ws_float
    = Done tt (final_state (set_entity_type 7 text_type ws_float))
  ∧ data (final_state (set_entity_type 7 text_type ws_float)) !! 7%N
    = Some (mkData FLOAT 7 "TMI" (Some 1%N) None false text_type None)
  ∧ primitive_type text_type ≠ FLOAT.
Proof. repeat split; try (vm_compute; reflexivity). done. Qed.

End DataProps.

(** ** The cast to 64-bit floats *)

Module Float64Props.
Import GeoImage.
Local Open Scope Z_scope.

Lemma Qred_inject_Z (z : Z) : Qred (inject_Z z) = inject_Z z.
Proof.
  unfold Qred, inject_Z.
  pose proof (Z.ggcd_gcd z 1) as Hg.
  pose proof (Z.ggcd_correct_divisors z 1) as Hd.
  destruct (Z.ggcd z 1) as [g [aa bb]]. cbn in Hg, Hd.
  rewrite Z.gcd_1_r in Hg. subst g. destruct Hd as [Ha Hb].
  assert (aa = z) as -> by lia. assert (bb = 1) as -> by lia. reflexivity.
Qed.

Lemma Qred_scaled (z : Z) (t : Z) :
  0 ≤ t → Qred (Qmake (z * 2 ^ t) (Z.to_pos (2 ^ t))) = inject_Z z.
Proof.
  intros Ht.
  assert (0 < 2 ^ t) as Hpos by (apply Z.pow_pos_nonneg; lia).
  rewrite <- (Qred_inject_Z z).
  apply Qred_complete. unfold Qeq. cbn. rewrite Z2Pos.id by done. lia.
Qed.

(** The cast keeps the integers from 0 to 2 ^ 53. *)
Lemma f8_small_int (z : Z) :
  0 ≤ z ≤ 2 ^ 53 → f8 (inject_Z z) = inject_Z z.
Proof.
  intros Hz. unfold f8. cbn [Qnum Qden inject_Z].
  destruct (Z.eqb_spec z 0) as [->|Hne]; [reflexivity|].
  assert (0 < z) as Hpos by lia.
  rewrite Z.abs_eq by lia. change (Z.log2 1) with 0. rewrite Z.sub_0_r.
  pose proof (Z.log2_spec z Hpos) as [Hlo Hhi].
  pose proof (Z.log2_nonneg z) as Hnn.
  rewrite (proj2 (Z.leb_le 0 (Z.log2 z))) by done.
  rewrite !Z.mul_1_l. rewrite (proj2 (Z.leb_le (2 ^ Z.log2 z) z)) by done.
  rewrite Z.sgn_pos by done.
  assert (Z.log2 z ≤ 53) as H53.
  { destruct (decide (Z.log2 z ≤ 53)); [done|].
    assert (2 ^ 54 ≤ 2 ^ Z.log2 z) by (apply Z.pow_le_mono_r; lia). lia. }
  destruct (decide (Z.log2 z = 53)) as [E|E].
  { assert (z = 2 ^ 53) as -> by (rewrite E in Hlo; lia).
    vm_compute. reflexivity. }
  replace (Z.max (Z.log2 z - 52) (-1074)) with (Z.log2 z - 52) by lia.
  destruct (Z.leb_spec 0 (Z.log2 z - 52)) as [Hge|Hlt].
  - replace (Z.log2 z - 52) with 0 by lia. change (2 ^ 0) with 1.
    rewrite Z.div_1_r, Z.mod_1_r. change (2 * 0 <? 1) with true. cbv iota.
    rewrite Z.mul_1_l, Z.mul_1_r. apply Qred_inject_Z.
  - rewrite Z.div_1_r, Z.mod_1_r. change (2 * 0 <? 1) with true. cbv iota.
    rewrite Z.mul_1_l. apply Qred_scaled. lia.
Qed.

(** For an image whose sides have at most 2 ^ 53 pixels, the corners are
    stored as they are. *)
Lemma corners_small w h :
  Z.of_nat w ≤ 2 ^ 53 → Z.of_nat h ≤ 2 ^ 53 →
  corners w h
  = [(0, inject_Z (Z.of_nat h), 0);
     (inject_Z (Z.of_nat w), inject_Z (Z.of_nat h), 0);
     (inject_Z (Z.of_nat w), 0, 0); (0, 0, 0)]%Q.
Proof.
  intros Hw Hh. unfold corners.
  rewrite (f8_small_int (Z.of_nat w)), (f8_small_int (Z.of_nat h)) by lia.
  reflexivity.
Qed.

End Float64Props.

Module GeoImageProps.
Import GeoImage.

Lemma fromarrays_length a : shape a = [4; 3]%nat → length (fromarrays a) = 4%nat.
Proof. intros H. unfold fromarrays. rewrite H. reflexivity. Qed.

Lemma set_vertices_accepts xyz s :
  four_by_three xyz →
  ∃ r, set_vertices xyz s =
         Done tt (mkState (on_file s) (Some r) (image_size s) (Some r)
                          (dirty s ++ ["vertices"]))
       ∧ length r = 4%nat.
Proof.
  intros (a & Ha & Hs). unfold set_vertices. rewrite Ha.
  rewrite bool_decide_eq_true_2 by done.
  exists (fromarrays a). split; [reflexivity | by apply fromarrays_length].
Qed.

Lemma set_vertices_rejects xyz s :
  ¬ four_by_three xyz →
  ∃ site, set_vertices xyz s = Raised (Exn ValueError site) s.
Proof.
  intros Hn. unfold set_vertices.
  destruct (as_ndarray xyz) as [a|] eqn:Ha; [|eexists; reflexivity].
  case_bool_decide as Hs; [|eexists; reflexivity].
  exfalso. apply Hn. by exists a.
Qed.

Lemma default_vertices_shape s w h :
  image_size s = Some (w, h) → four_by_three (default_vertices s).
Proof.
  intros H. unfold four_by_three, default_vertices. rewrite H.
  eexists. split; reflexivity.
Qed.


(** The getter, path by path. *)
Lemma vertices_unfold f v i fv d :
  vertices (mkState f v i fv d) =
    match (if f then match v with None => fv | Some _ => v end else v), i with
    | None, Some (w, h) =>
        Done (Some (view_rows (corners w h)))
             (mkState f (Some (corners w h)) i (Some (corners w h))
                      (d ++ ["vertices"]))
    | v', _ =>
        Done (view_rows <$> v') (mkState f v' i fv d)
    end.
Proof.
  destruct v as [r|], f, fv as [r'|], i as [[w h]|]; reflexivity.
Qed.





End GeoImageProps.

Module EMSurveyProps.
Import EMSurvey.

(** Inversion of a sequence that returns. *)
Lemma bind_done {S A B} (m : M S A) (k : A → M S B) s b s' :
  bind m k s = Done b s' → ∃ a s1, m s = Done a s1 ∧ k a s1 = Done b s'.
Proof. unfold bind. destruct (m s) as [a s1|]; [eauto | done]. Qed.

Lemma the_survey_done self ws s ws' :
  the_survey self ws = Done s ws' → ws' = ws ∧ surveys ws !! self = Some s.
Proof.
  unfold the_survey. step. destruct (surveys ws !! self); [|done].
  by intros [= <- <-].
Qed.

Lemma the_survey_registered self ws s :
  surveys ws !! self = Some s → the_survey self ws = Done s ws.
Proof. intros H. unfold the_survey. step. by rewrite H. Qed.

Lemma propagate_done self paired ws ws' :
  propagate self paired ws = Done tt ws' →
  ∃ s, surveys ws !! self = Some s ∧
    match paired s with
    | Some r => ∃ sr, surveys ws !! r = Some sr
        ∧ surveys ws' = <[r := with_metadata sr (metadata s)]> (surveys ws)
    | None => ws' = ws
    end.
Proof.
  unfold propagate. intros (s & ws1 & [-> Hs]%the_survey_done & H)%bind_done.
  exists s. split; [done|].
  destruct (paired s) as [r|]; [|by injection H].
  apply bind_done in H as (s2 & ws2 & [-> Hs2]%the_survey_done & H).
  assert (s2 = s) as -> by congruence.
  unfold set_metadata in H.
  apply bind_done in H as (sr & ws3 & [-> Hr]%the_survey_done & H).
  exists sr. split; [done|]. unfold set_survey in H. step.
  revert H. unfold modify. by intros [= <-].
Qed.

(** C7. When [edit_metadata] returns, the metadata of the receivers
    entity, if the survey has one, equals the metadata of the survey, and
    likewise for the transmitters entity. *)
Theorem edit_metadata_propagates self entries ws ws' :
  edit_metadata self entries ws = Done tt ws' →
  ∃ s', surveys ws' !! self = Some s'
    ∧ (∀ r, receivers s' = Some r →
         ∃ sr, surveys ws' !! r = Some sr ∧ metadata sr = metadata s')
    ∧ (∀ t, transmitters s' = Some t →
         ∃ st, surveys ws' !! t = Some st ∧ metadata st = metadata s').
Proof.
  unfold edit_metadata.
  intros ([] & ws1 & _ & H)%bind_done.
  apply bind_done in H as ([] & ws2 & H1 & H2).
  apply propagate_done in H1 as (s1 & Hs1 & H1).
  apply propagate_done in H2 as (s2 & Hs2 & H2).
  (* the survey after the first hand-over *)
  assert (metadata s2 = metadata s1 ∧ receivers s2 = receivers s1
          ∧ ∀ r, receivers s1 = Some r →
              ∃ sr, surveys ws2 !! r = Some sr ∧ metadata sr = metadata s1)
    as (Hm & Hrx & Hsync).
  { destruct (receivers s1) as [r|] eqn:Er.
    - destruct H1 as (sr & Hsr & Heq). rewrite Heq in Hs2.
      destruct (decide (r = self)) as [->|Hne].
      + rewrite lookup_insert_eq in Hs2. injection Hs2 as <-.
        assert (sr = s1) as -> by congruence. cbn. rewrite Er.
        repeat split. intros ? [= <-]. rewrite Heq, lookup_insert_eq. eauto.
      + rewrite lookup_insert_ne in Hs2 by done.
        assert (s2 = s1) as -> by congruence.
        repeat split; [done|]. intros ? [= <-].
        rewrite Heq, lookup_insert_eq. eauto.
    - subst ws2. assert (s2 = s1) as -> by congruence. rewrite Er. done. }
  destruct (transmitters s2) as [t|] eqn:Et.
  - destruct H2 as (st & Hst & Heq).
    destruct (decide (t = self)) as [->|Hne].
    + assert (st = s2) as -> by congruence.
      exists (with_metadata s2 (metadata s2)).
      rewrite Heq, lookup_insert_eq. split; [done|]. cbn. split.
      * intros r Hr. rewrite Hrx in Hr. destruct (Hsync r Hr) as (sr & Hsr & Hmr).
        destruct (decide (self = r)) as [<-|Hn].
        -- rewrite lookup_insert_eq. eauto.
        -- rewrite lookup_insert_ne by done. exists sr. by rewrite Hm.
      * rewrite Et. intros ? [= <-]. rewrite lookup_insert_eq. eauto.
    + exists s2. rewrite Heq, lookup_insert_ne by done. split; [done|]. split.
      * intros r Hr. rewrite Hrx in Hr. destruct (Hsync r Hr) as (sr & Hsr & Hmr).
        destruct (decide (t = r)) as [<-|Hn].
        -- rewrite lookup_insert_eq. eauto.
        -- rewrite lookup_insert_ne by done. exists sr. by rewrite Hm.
      * rewrite Et. intros ? [= <-]. rewrite lookup_insert_eq. eauto.
  - subst ws'. exists s2. split; [done|]. split.
    + intros r Hr. rewrite Hrx in Hr. destruct (Hsync r Hr) as (sr & Hsr & Hmr).
      exists sr. by rewrite Hm.
    + by rewrite Et.
Qed.


Lemma keeps_refl self ws : keeps self ws ws.
Proof. intros s Hs. exists s. done. Qed.

Lemma keeps_trans self ws1 ws2 ws3 :
  keeps self ws1 ws2 → keeps self ws2 ws3 → keeps self ws1 ws3.
Proof.
  intros H1 H2 s Hs. destruct (H1 s Hs) as (s2 & Hs2 & Hn2 & Hc2).
  destruct (H2 s2 Hs2) as (s3 & Hs3 & Hn3 & Hc3).
  exists s3. split; [done|]. split; [by etrans | congruence].
Qed.

Lemma sound_ret self {A} (a : A) : sound self (ret a).
Proof. intros ws. apply keeps_refl. Qed.

Lemma sound_raise self {A} c site :
  site ∉ [msg_channels; msg_not_a_dict; msg_duplicate; msg_component_type;
          msg_channel_count; msg_channel_attr] →
  sound self (raise c site : M workspace A).
Proof. intros H ws. exact H. Qed.

Lemma sound_bind self {A B} (m : M workspace A) (k : A → M workspace B) :
  sound self m → (∀ a, sound self (k a)) → sound self (bind m k).
Proof.
  intros Hm Hk ws. unfold bind. specialize (Hm ws).
  destruct (m ws) as [a ws1|e ws1]; [|done].
  specialize (Hk a ws1). destruct (k a ws1); [|done].
  by eapply keeps_trans.
Qed.

Ltac nv :=
  let Hv := fresh in
  intros Hv; unfold validation_error in Hv; cbn in Hv;
  repeat (apply elem_of_cons in Hv as [Hv|Hv]; [discriminate Hv|]);
  by apply elem_of_nil in Hv.

(** Replacing the record of the survey by one with the same groups and
    the same channels. *)
Lemma keeps_insert self ws s s' ws' :
  surveys ws !! self = Some s →
  surveys ws' = <[self := s']> (surveys ws) →
  group_names s ⊆ group_names s' →
  channels_of s' = channels_of s →
  keeps self ws ws'.
Proof.
  intros Hs Heq Hn Hc s0 Hs0. assert (s0 = s) as -> by congruence.
  exists s'. by rewrite Heq, lookup_insert_eq.
Qed.

(** Replacing the record of another survey. *)
Lemma keeps_insert_other self r ws sr ws' :
  r ≠ self →
  surveys ws' = <[r := sr]> (surveys ws) →
  keeps self ws ws'.
Proof.
  intros Hne Heq s Hs. exists s. by rewrite Heq, lookup_insert_ne.
Qed.

Lemma channels_of_em s em em' :
  metadata s !! "EM Dataset" = Some (PDict em) →
  em' !! "Channels" = em !! "Channels" →
  channels_of (with_metadata s (<["EM Dataset" := PDict em']> (metadata s)))
  = channels_of s.
Proof.
  intros Hem Hc. unfold channels_of. cbn. by rewrite lookup_insert_eq, Hem.
Qed.

Lemma sound_edit_validate self g :
  sound self (_edit_validate_property_groups self (PGroup g)).
Proof.
  intros ws. unfold _edit_validate_property_groups. cbn.
  unfold channels, em_dataset, the_survey, set_em_dataset, set_survey. step.
  destruct (surveys ws !! self) as [s|] eqn:Hs; cbn; [|nv].
  destruct (metadata s !! "EM Dataset") as [[| | | | |em|]|] eqn:Hem; cbn;
    try nv.
  destruct (em !! "Channels") as [c|] eqn:Hc; cbn; [|nv].
  destruct c as [|t|q|u|l|d|g']; cbn; try nv.
  all: case_bool_decide; cbn; [|nv].
  all: rewrite Hs; cbn; rewrite Hem; cbn.
  all: destruct (em !! "Property groups") as [pgs|] eqn:Hp; cbn; [|nv].
  all: destruct pgs as [|t'|q'|u'|l'|d'|g'']; cbn; try nv.
  all: try (match goal with
            | |- context [if ?b then _ else _] => destruct b eqn:?; cbn
            end).
  all: try apply keeps_refl; try nv.
  all: rewrite ?Hs; cbn.
  all: eapply keeps_insert; [done | reflexivity | done |].
  all: apply (channels_of_em _ em); [done|]; by rewrite lookup_insert_ne.
Qed.

Lemma sound_propagate self paired : sound self (propagate self paired).
Proof.
  intros ws. unfold propagate, set_metadata, the_survey, set_survey. step.
  destruct (surveys ws !! self) as [s|] eqn:Hs; cbn; [|nv].
  destruct (paired s) as [r|]; cbn; [|apply keeps_refl].
  rewrite Hs. cbn.
  destruct (surveys ws !! r) as [sr|] eqn:Hr; cbn; [|nv].
  destruct (decide (r = self)) as [->|Hne].
  - assert (sr = s) as -> by congruence.
    eapply keeps_insert; [done | reflexivity | done |].
    unfold channels_of. done.
  - by eapply keeps_insert_other.
Qed.

Lemma sound_edit_metadata_group self g :
  sound self (edit_metadata self [("Property groups", PGroup g)]).
Proof.
  unfold edit_metadata. cbn.
  apply sound_bind; [|intros _; apply sound_bind;
                       [apply sound_propagate | intros _; apply sound_propagate]].
  apply sound_bind; [|intros _; apply sound_ret].
  unfold edit_entry. cbn. apply sound_edit_validate.
Qed.

Lemma sound_find_or_create self nm :
  sound self (find_or_create_property_group self nm).
Proof.
  intros ws. unfold find_or_create_property_group, the_survey, set_survey. step.
  destruct (surveys ws !! self) as [s|] eqn:Hs; cbn; [|nv].
  destruct (List.find _ _); cbn; [apply keeps_refl|].
  eapply keeps_insert; [done | reflexivity | |done].
  unfold group_names. cbn. rewrite map_app. set_solver.
Qed.

Lemma sound_add_data_to_group self l nm :
  sound self (add_data_to_group self l nm).
Proof.
  unfold add_data_to_group.
  apply sound_bind; [apply sound_find_or_create|]. intros g ws.
  unfold the_survey, set_survey. step.
  destruct (surveys ws !! self) as [s|] eqn:Hs; cbn; [|nv].
  eapply keeps_insert; [done | reflexivity | |done].
  unfold group_names. cbn. rewrite <- list_fmap_compose.
  intros x Hx. apply list_elem_of_fmap in Hx as (h & -> & Hh).
  apply list_elem_of_fmap. exists h. split; [|done].
  cbn. by case_bool_decide.
Qed.

Lemma sound_bind_group self nm l : sound self (bind_group self nm l).
Proof.
  unfold bind_group.
  apply sound_bind; [apply sound_add_data_to_group|]. intros g.
  apply sound_bind; [apply sound_edit_metadata_group|]. intros _.
  apply sound_ret.
Qed.

Lemma sound_add_data self nm : sound self (add_data self nm).
Proof.
  intros ws. unfold add_data, the_survey. step.
  destruct (surveys ws !! self) as [s|] eqn:Hs; cbn; [|nv].
  eapply keeps_insert; [done | reflexivity | done | done].
Qed.

(** The data of a dictionary component: the one validation error is
    raised at the first channel whose attributes are not a dictionary,
    once the data of the channels before it have been created. *)
Lemma create_channels_spec self d : ∀ ws,
  match create_channels self d ws with
  | Done _ ws' => keeps self ws ws'
  | Raised e ws' =>
      validation_error e →
      exn_site e = msg_channel_attr
      ∧ ∃ pre ch post us,
          d = pre ++ (ch, AttrOther) :: post
          ∧ create_channels self pre ws = Done us ws'
  end.
Proof.
  induction d as [|[channel attr] d IH]; intros ws; cbn; [apply keeps_refl|].
  destruct attr.
  - unfold bind at 1. pose proof (sound_add_data self channel ws) as Ha.
    destruct (add_data self channel ws) as [u ws1|e1 ws1] eqn:Hadd; [|done].
    unfold bind at 1. specialize (IH ws1).
    destruct (create_channels self d ws1) as [us ws2|e2 ws2] eqn:Hrest.
    + cbn. by eapply keeps_trans.
    + intros Hv. destruct (IH Hv) as (Hsite & pre & ch & post & us & -> & Hpre).
      split; [done|]. exists ((channel, AttrDict) :: pre), ch, post, (u :: us).
      split; [done|]. cbn. unfold bind. by rewrite Hadd, Hpre.
  - intros _. split; [done|]. by exists [], channel, d, [].
Qed.

Lemma component_data_spec self block ws :
  match component_data self block ws with
  | Done _ ws' => keeps self ws ws'
  | Raised e ws' =>
      validation_error e →
      exn_site e = msg_channel_attr
      ∧ ∃ pre ch post us,
          block = BlockDict (pre ++ (ch, AttrOther) :: post)
          ∧ create_channels self pre ws = Done us ws'
  end.
Proof.
  destruct block as [l|d|]; cbn; [| |apply keeps_refl].
  - step. destruct (forallb _ l); [apply keeps_refl | nv].
  - pose proof (create_channels_spec self d ws) as H.
    destruct (create_channels self d ws); [done|].
    intros Hv. destruct (H Hv) as (Hsite & pre & ch & post & us & -> & Hpre).
    split; [done|]. by exists pre, ch, post, us.
Qed.

(** One turn of the loop: it keeps the names and channels where it
    returns; a validation error leaves the workspace as it was, except
    the one for channel attributes that are not a dictionary, which comes
    after the data of the channels before. *)
Lemma add_component_spec self nm block ws :
  match add_component self nm block ws with
  | Done _ ws' => keeps self ws ws'
  | Raised e ws' =>
      validation_error e →
      (exn_site e ≠ msg_channel_attr ∧ ws' = ws)
      ∨ (exn_site e = msg_channel_attr
         ∧ ∃ pre ch post us,
             block = BlockDict (pre ++ (ch, AttrOther) :: post)
             ∧ create_channels self pre ws = Done us ws')
  end.
Proof.
  unfold add_component, channels, em_dataset, the_survey, py_len. step.
  destruct (surveys ws !! self) as [s|] eqn:Hs; cbn; [|intros; by left].
  case_bool_decide; cbn; [intros; by left|].
  destruct (match block with
            | BlockList l => negb (forallb (is_float_data ws) l)
            | BlockDict _ => false
            | BlockOther => true
            end); cbn; [intros; by left|].
  rewrite Hs; cbn.
  destruct (metadata s !! "EM Dataset") as [v|]; cbn; [|intros; by left].
  destruct v as [| | | | |em|]; cbn; try (intros; by left).
  destruct (em !! "Channels") as [c|]; cbn; [|intros; by left].
  assert (∀ n : nat,
    match (if bool_decide (block_len block = n)
           then bind (component_data self block) (bind_group self nm)
           else raise ValueError msg_channel_count) ws with
    | Done _ ws' => keeps self ws ws'
    | Raised e ws' =>
        validation_error e →
        (exn_site e ≠ msg_channel_attr ∧ ws' = ws)
        ∨ (exn_site e = msg_channel_attr
           ∧ ∃ pre ch post us,
               block = BlockDict (pre ++ (ch, AttrOther) :: post)
               ∧ create_channels self pre ws = Done us ws')
    end) as Hrest.
  { intros n. case_bool_decide; cbn; [|intros; by left].
    unfold bind. pose proof (component_data_spec self block ws) as H1.
    destruct (component_data self block ws) as [l ws1|e1 ws1].
    - pose proof (sound_bind_group self nm l ws1) as H2.
      destruct (bind_group self nm l ws1); [by eapply keeps_trans|done].
    - intros Hv. right. by apply H1. }
  destruct c as [|t|q|u|l|d|g']; cbn; try (intros; by left); apply Hrest.
Qed.




Lemma channels_cases self ws :
  (∃ c s, channels self ws = Done c ws
          ∧ surveys ws !! self = Some s ∧ channels_of s = Some c)
  ∨ (∃ e, channels self ws = Raised e ws ∧ ¬ validation_error e).
Proof.
  unfold channels, em_dataset, the_survey, channels_of. step.
  destruct (surveys ws !! self) as [s|] eqn:Hs; cbn; [|right; eexists; split; [done|nv]].
  destruct (metadata s !! "EM Dataset") as [v|] eqn:Hem; cbn;
    [|right; eexists; split; [done|nv]].
  destruct v as [| | | | |em|]; cbn;
    try (right; eexists; split; [done|nv]).
  destruct (em !! "Channels") as [c|] eqn:Hc; cbn;
    [|right; eexists; split; [done|nv]].
  left. exists c, s. by rewrite Hem.
Qed.

Lemma channels_registered self ws s c :
  surveys ws !! self = Some s → channels_of s = Some c →
  channels self ws = Done c ws.
Proof.
  intros Hs Hc. destruct (channels_cases self ws) as [(c' & s' & H & Hs' & Hc')|(e & H & _)].
  - congruence.
  - revert H Hc. unfold channels, em_dataset, the_survey, channels_of. step.
    rewrite Hs. cbn.
    destruct (metadata s !! "EM Dataset") as [[| | | | |em|]|]; cbn; try done.
    by intros H ->.
Qed.

(** [len] does not look at the workspace. *)
Lemma py_len_any c n ws ws1 :
  py_len c ws = Done n ws → py_len c ws1 = Done n ws1.
Proof. destruct c; cbn; unfold ret, raise; congruence. Qed.

Lemma add_component_duplicate self nm block ws s :
  surveys ws !! self = Some s → nm ∈ group_names s →
  add_component self nm block ws = Raised (Exn ValueError msg_duplicate) ws.
Proof.
  intros Hs Hn. unfold add_component, the_survey. step. rewrite Hs. cbn.
  by rewrite bool_decide_eq_true_2.
Qed.

Lemma add_component_count self nm block ws s c n :
  surveys ws !! self = Some s → channels_of s = Some c →
  py_len c ws = Done n ws → block_len block ≠ n →
  raises (add_component self nm block ws).
Proof.
  intros Hs Hc Hlen Hne.
  pose proof (channels_registered self ws s c Hs Hc) as Hch.
  unfold add_component. unfold bind at 1. rewrite (the_survey_registered _ _ _ Hs).
  unfold bind at 1. unfold get.
  case_bool_decide; [done|].
  destruct (match block with
            | BlockList l => negb (forallb (is_float_data ws) l)
            | BlockDict _ => false
            | BlockOther => true
            end); [done|].
  unfold bind at 1. rewrite Hch. unfold bind at 1. rewrite Hlen.
  by rewrite bool_decide_eq_false_2.
Qed.

Lemma add_components_duplicate self nm block items : ∀ ws s,
  surveys ws !! self = Some s → nm ∈ group_names s → (nm, block) ∈ items →
  raises (add_components self items ws).
Proof.
  induction items as [|[nm0 b0] items IH]; intros ws s Hs Hn Hin.
  { by apply elem_of_nil in Hin. }
  cbn. unfold bind at 1.
  pose proof (add_component_spec self nm0 b0 ws) as Hc.
  destruct (add_component self nm0 b0 ws) as [g ws1|e1 ws1] eqn:Hadd; [|done].
  apply elem_of_cons in Hin as [[= <- <-]|Hin].
  { by rewrite (add_component_duplicate _ _ _ _ _ Hs Hn) in Hadd. }
  destruct (Hc s Hs) as (s1 & Hs1 & Hsub & _).
  pose proof (IH ws1 s1 Hs1 (Hsub _ Hn) Hin) as Hr.
  unfold bind. by destruct (add_components self items ws1).
Qed.

Lemma add_components_count self nm block items c n : ∀ ws s,
  surveys ws !! self = Some s → channels_of s = Some c →
  py_len c ws = Done n ws → block_len block ≠ n → (nm, block) ∈ items →
  raises (add_components self items ws).
Proof.
  induction items as [|[nm0 b0] items IH]; intros ws s Hs Hch Hlen Hne Hin.
  { by apply elem_of_nil in Hin. }
  cbn. unfold bind at 1.
  pose proof (add_component_spec self nm0 b0 ws) as Hc.
  destruct (add_component self nm0 b0 ws) as [g ws1|e1 ws1] eqn:Hadd; [|done].
  apply elem_of_cons in Hin as [[= <- <-]|Hin].
  { pose proof (add_component_count _ nm block _ _ _ _ Hs Hch Hlen Hne) as Hr.
    by rewrite Hadd in Hr. }
  destruct (Hc s Hs) as (s1 & Hs1 & _ & Hch1).
  assert (channels_of s1 = Some c) as Hch' by congruence.
  pose proof (IH ws1 s1 Hs1 Hch' (py_len_any _ _ _ ws1 Hlen) Hne Hin) as Hr.
  unfold bind. by destruct (add_components self items ws1).
Qed.

(** C5. [add_component_data] raises when the channels are unset or empty,
    when a requested component name is the name of a group of the survey,
    and when a component has a number of entries other than
    [len(channels)]; with channels [1.0, 2.0] and the component "A" of two
    data entities of the survey it creates the one group "A" holding
    them, records "A" in the metadata and returns the group, and a second
    call with the same name raises. *)
Theorem add_component_data_contract self data ws :
  (* channels unset or empty *)
  ((∀ c, channels self ws = Done c ws → truthy c = false) →
     raises (add_component_data self data ws))
  (* a requested name is the name of a group of the survey *)
  ∧ (∀ items nm block s,
       data = Components items → (nm, block) ∈ items →
       surveys ws !! self = Some s → nm ∈ group_names s →
       raises (add_component_data self data ws))
  (* a component with a number of entries other than len(channels) *)
  ∧ (∀ items nm block c n,
       data = Components items → (nm, block) ∈ items →
       channels self ws = Done c ws → py_len c ws = Done n ws →
       block_len block ≠ n →
       raises (add_component_data self data ws))
  (* the scenario: channels [1.0, 2.0], component "A" with two data *)
  ∧ (∃ ws1 s1,
       add_component_data 10 component_A survey_ws
         = Done [mkGroup "A" [21; 22]%N] ws1
       ∧ surveys ws1 !! 10%N = Some s1
       ∧ property_groups s1 = [mkGroup "A" [21; 22]%N]
       ∧ metadata_groups s1 = Some [PStr "A"]
       ∧ raises_class ValueError (add_component_data 10 component_A ws1)).
Proof.
  repeat split.
  - intros Hch. unfold add_component_data, bind.
    destruct (channels_cases self ws) as [(c & s & H & _)|(e & H & _)];
      rewrite H; [|done].
    by rewrite (Hch c H).
  - intros items nm block s -> Hin Hs Hn. unfold add_component_data, bind.
    destruct (channels_cases self ws) as [(c & s' & H & _)|(e & H & _)];
      rewrite H; [|done].
    destruct (negb (truthy c)); [done|].
    pose proof (add_components_duplicate self nm block items ws s Hs Hn Hin).
    by destruct (add_components self items ws).
  - intros items nm block c n -> Hin Hch Hlen Hne. unfold add_component_data, bind.
    destruct (channels_cases self ws) as [(c' & s & H & Hs & Hc)|(e & H & _)];
      [|congruence].
    rewrite H. assert (c' = c) as -> by congruence.
    destruct (negb (truthy c)); [done|].
    pose proof (add_components_count self nm block items c n ws s Hs Hc Hlen Hne Hin).
    by destruct (add_components self items ws).
  - eexists _, _. split; [vm_compute; reflexivity|].
    repeat split; vm_compute; reflexivity.
Qed.

Lemma add_component_data_contract_witness :
  raises (add_component_data 10 component_A
            (final_state (edit_metadata 10 [("Channels", PList [])] survey_ws)))
  ∧ raises (add_component_data 10 component_A
              (final_state (add_component_data 10 component_A survey_ws)))
  ∧ raises (add_component_data 10 components_AB survey_ws).
Proof.
  split; [|split].
  - apply (add_component_data_contract 10 component_A).
    intros c. vm_compute. by intros [= <-].
  - destruct (add_component_data_contract 10 component_A
                (final_state (add_component_data 10 component_A survey_ws)))
      as (_ & Hb & _).
    apply (Hb [("A", BlockList [EntData 21; EntData 22])] "A"
              (BlockList [EntData 21; EntData 22])
              (mkSurvey
                 (<["EM Dataset" := PDict (<["Property groups" := PList [PStr "A"]]> em0)]> ∅)
                 [mkGroup "A" [21; 22]%N] [21; 22; 23]%N None (Some 11%N))).
    + reflexivity.
    + apply list_elem_of_In. left. reflexivity.
    + vm_compute. reflexivity.
    + apply list_elem_of_In. left. reflexivity.
  - destruct (add_component_data_contract 10 components_AB survey_ws) as (_ & _ & Hc & _).
    apply (Hc [("A", BlockList [EntData 21; EntData 22]);
               ("B", BlockList [EntData 23])] "B" (BlockList [EntData 23])
              (PList [PFloat 1; PFloat 2]) 2%nat).
    + reflexivity.
    + apply list_elem_of_In. right. left. reflexivity.
    + vm_compute. reflexivity.
    + reflexivity.
    + cbn. lia.
Defined.




Lemma set_em_dataset_paired_ok self ws s em d :
  surveys ws !! self = Some s →
  metadata s !! "EM Dataset" = Some (PDict em) →
  paired_ok self ws →
  ∃ ws', set_em_dataset self d ws = Done tt ws' ∧ paired_ok self ws'.
Proof.
  intros Hs Hem (s0 & em0 & Hs0 & _ & Hrx & Htx).
  assert (s0 = s) as -> by congruence.
  unfold set_em_dataset, the_survey, set_survey. step. rewrite Hs. cbn.
  eexists. split; [reflexivity|].
  exists (with_metadata s (<["EM Dataset" := PDict d]> (metadata s))), d. cbn.
  rewrite !lookup_insert_eq. repeat split.
  - intros r Hr. rewrite lookup_insert. case_decide; [done | auto].
  - intros t Ht. rewrite lookup_insert. case_decide; [done | auto].
Qed.

Lemma edit_entry_plain_returns self key value ws :
  plain_key key → paired_ok self ws →
  ∃ ws', edit_entry self key value ws = Done tt ws' ∧ paired_ok self ws'.
Proof.
  intros Hk Hok. pose proof Hok as (s & em & Hs & Hem & _).
  unfold edit_entry.
  rewrite bool_decide_eq_false_2
    by (intros H; apply Hk; set_solver).
  rewrite bool_decide_eq_false_2
    by (intros ->; apply Hk; set_solver).
  assert (em_dataset self ws = Done em ws) as Hd.
  { unfold em_dataset, the_survey. step. by rewrite Hs; cbn; rewrite Hem. }
  destruct value; unfold bind at 1; rewrite Hd;
    try by eapply set_em_dataset_paired_ok.
  case_bool_decide; [by eapply set_em_dataset_paired_ok|].
  by exists ws.
Qed.

Lemma propagate_returns self paired ws :
  (∀ s r, surveys ws !! self = Some s → paired s = Some r →
          is_Some (surveys ws !! r)) →
  is_Some (surveys ws !! self) →
  ∃ ws', propagate self paired ws = Done tt ws'
    ∧ (∀ u, is_Some (surveys ws !! u) → is_Some (surveys ws' !! u))
    ∧ (∀ s, surveys ws !! self = Some s →
         ∃ s', surveys ws' !! self = Some s'
               ∧ receivers s' = receivers s ∧ transmitters s' = transmitters s).
Proof.
  intros Hp [s Hs]. unfold propagate, set_metadata, the_survey, set_survey. step.
  rewrite Hs. cbn. destruct (paired s) as [r|] eqn:Er; cbn.
  - rewrite Hs. cbn. destruct (Hp s r Hs Er) as [sr Hr]. rewrite Hr. cbn.
    eexists. split; [reflexivity|]. cbn. split.
    + intros u Hu. rewrite lookup_insert. by case_decide.
    + intros s0 Hs0. assert (s0 = s) as -> by congruence.
      rewrite lookup_insert. case_decide.
      * subst r. assert (sr = s) as -> by congruence.
        eexists. split; [reflexivity|done].
      * exists s. done.
  - exists ws. split; [done|]. split; [done|].
    intros s0 Hs0. assert (s0 = s) as -> by congruence. by exists s.
Qed.

(** Storing and deleting plain keys always returns. *)
Lemma edit_metadata_returns self entries ws :
  Forall (fun kv => plain_key (fst kv)) entries →
  paired_ok self ws →
  ∃ ws', edit_metadata self entries ws = Done tt ws'.
Proof.
  intros Hplain Hok. unfold edit_metadata.
  assert (∃ ws1, for_each entries (fun kv => edit_entry self (fst kv) (snd kv)) ws
                 = Done tt ws1 ∧ paired_ok self ws1) as (ws1 & Hloop & Hok1).
  { revert ws Hok. induction Hplain as [|[key value] entries Hk _ IH];
      intros ws Hok; cbn.
    - by exists ws.
    - destruct (edit_entry_plain_returns self key value ws Hk Hok)
        as (ws1 & H1 & Hok1).
      destruct (IH ws1 Hok1) as (ws2 & H2 & Hok2).
      exists ws2. unfold bind. by rewrite H1. }
  unfold bind at 1. rewrite Hloop.
  destruct Hok1 as (s & em & Hs & _ & Hrx & Htx).
  destruct (propagate_returns self receivers ws1) as (ws2 & H2 & Hreg & Hkeep).
  { intros s0 r Hs0. assert (s0 = s) as -> by congruence. apply Hrx. }
  { eauto. }
  unfold bind at 1. rewrite H2.
  destruct (Hkeep s Hs) as (s2 & Hs2 & _ & Htx2).
  destruct (propagate_returns self transmitters ws2) as (ws3 & H3 & _).
  { intros s0 t Hs0 Ht. assert (s0 = s2) as -> by congruence.
    rewrite Htx2 in Ht. apply Hreg. by apply Htx. }
  { eauto. }
  by exists ws3.
Qed.

Lemma edit_metadata_propagates_witness :
  ∃ s', surveys (final_state (edit_metadata 10 unit_entries survey_ws)) !! 10%N = Some s'
    ∧ (∀ r, receivers s' = Some r →
         ∃ sr, surveys (final_state (edit_metadata 10 unit_entries survey_ws)) !! r = Some sr
               ∧ metadata sr = metadata s')
    ∧ (∀ t, transmitters s' = Some t →
         ∃ st, surveys (final_state (edit_metadata 10 unit_entries survey_ws)) !! t = Some st
               ∧ metadata st = metadata s').
Proof.
  apply (edit_metadata_propagates 10 unit_entries survey_ws).
  vm_compute. reflexivity.
Defined.

End EMSurveyProps.

Module GroundTEMProps.
Import GroundTEM.
Local Open Scope Z_scope.

Lemma elem_of_unique l v : v ∈ unique l ↔ v ∈ l.
Proof. unfold unique. by rewrite merge_sort_Permutation, elem_of_remove_dups. Qed.

Lemma NoDup_unique l : NoDup (unique l).
Proof. unfold unique. rewrite merge_sort_Permutation. apply NoDup_remove_dups. Qed.

Lemma StronglySorted_le_lt (l : list Z) :
  StronglySorted Z.le l → NoDup l → StronglySorted Z.lt l.
Proof.
  induction 1 as [|x l Hs IH Hx]; intros Hnd; [constructor|].
  apply NoDup_cons in Hnd as [Hnx Hnd]. constructor; [auto|].
  rewrite Forall_forall in *. intros y Hy.
  specialize (Hx y Hy). assert (x ≠ y) by (intros ->; done). lia.
Qed.

Lemma unique_increasing l : StronglySorted Z.lt (unique l).
Proof.
  apply StronglySorted_le_lt; [|apply NoDup_unique].
  unfold unique. apply (StronglySorted_merge_sort Z.le).
Qed.

Lemma elem_of_intersect1d a b v : v ∈ intersect1d a b ↔ v ∈ a ∧ v ∈ b.
Proof. unfold intersect1d. by rewrite elem_of_unique, list_elem_of_filter, (comm and). Qed.

(** The dictionary built from an enumeration of distinct keys. *)
Lemma dict_of_acc (xs : list Z) : ∀ (k : nat) (m : gmap Z Z),
  NoDup xs →
  (∀ i v, xs !! i = Some v →
     fold_left (fun m iv => <[snd iv := Z.of_nat (fst iv)]> m)
               (enumerate_from k xs) m !! v = Some (Z.of_nat (k + i)))
  ∧ (∀ v, v ∉ xs →
     fold_left (fun m iv => <[snd iv := Z.of_nat (fst iv)]> m)
               (enumerate_from k xs) m !! v = m !! v).
Proof.
  induction xs as [|x xs IH]; intros k m Hnd; cbn.
  { split; [intros i v; by rewrite lookup_nil | done]. }
  apply NoDup_cons in Hnd as [Hx Hnd].
  destruct (IH (S k) (<[x := Z.of_nat k]> m) Hnd) as [IH1 IH2].
  split.
  - intros [|i] v Hv; cbn in Hv.
    + injection Hv as <-. rewrite IH2 by done. rewrite lookup_insert_eq.
      f_equal. lia.
    + rewrite (IH1 i v Hv). f_equal. lia.
  - intros v Hv. apply not_elem_of_cons in Hv as [Hne Hv].
    rewrite IH2 by done. by rewrite lookup_insert_ne.
Qed.

(** The value map, as the dictionary of the identifiers numbered from 1
    on top of the entry of 0. *)
Lemma value_map_of_unfold tx :
  value_map_of tx
  = fold_left (fun m iv => <[snd iv := Z.of_nat (fst iv)]> m)
              (enumerate_from 1 (unique tx)) (<[0 := 0]> ∅).
Proof. reflexivity. Qed.

Lemma value_map_of_rank tx i v :
  unique tx !! i = Some v → value_map_of tx !! v = Some (Z.of_nat (S i)).
Proof.
  intros Hi. rewrite value_map_of_unfold.
  destruct (dict_of_acc (unique tx) 1 (<[0 := 0]> ∅) (NoDup_unique tx)) as [H _].
  by rewrite (H i v Hi).
Qed.

Lemma value_map_of_other tx v :
  v ∉ tx → value_map_of tx !! v = if decide (v = 0) then Some 0 else None.
Proof.
  intros Hv. rewrite value_map_of_unfold.
  destruct (dict_of_acc (unique tx) 1 (<[0 := 0]> ∅) (NoDup_unique tx)) as [_ H].
  rewrite H by by rewrite elem_of_unique.
  case_decide as E; [subst; by rewrite lookup_insert_eq|].
  by rewrite lookup_insert_ne, lookup_empty.
Qed.

(** The keys of the value map the setter builds: 0 and the identifiers,
    wrapped into 32 bits. *)
Lemma default_value_map_keys a k :
  is_Some (default_value_map a !! k) ↔ k = 0 ∨ k ∈ map int32 a.
Proof.
  unfold default_value_map. rewrite lookup_insert_is_Some.
  set (l := map (fun i => (i, ("Loop " +:+ pretty i)%string))
                (unique (map int32 a))).
  assert (l.*1 = unique (map int32 a)) as Hfst.
  { unfold l. rewrite <- list_fmap_compose. apply list_fmap_id. }
  assert (is_Some (list_to_map (M := gmap Z string) l !! k)
          ↔ k ∈ map int32 a) as ->.
  { rewrite <- elem_of_unique, <- Hfst. split.
    - intros Hs. destruct (decide (k ∈ l.*1)) as [|Hn]; [done|].
      apply not_elem_of_list_to_map_1 in Hn. rewrite Hn in Hs.
      by destruct Hs.
    - intros Hin. destruct (list_to_map (M := gmap Z string) l !! k) eqn:E;
        [done|]. by apply not_elem_of_list_to_map_2 in E. }
  destruct (decide (k = 0)); naive_solver.
Qed.

(** Line 166 reads the label of every new number. *)
Lemma relabel_reads vm labels new_map k idx :
  relabel vm labels = Some new_map → vm !! k = Some idx →
  is_Some (labels !! idx).
Proof.
  unfold relabel. intros H Hk.
  destruct (mapM _ (map_to_list vm)) as [items|] eqn:E; [|done].
  apply mapM_Some in E. apply elem_of_map_to_list in Hk.
  apply list_elem_of_lookup in Hk as [n Hn].
  destruct (Forall2_lookup_l _ _ _ _ _ E Hn) as (y & _ & Hy). cbn in Hy.
  by destruct (labels !! idx).
Qed.

Lemma reindex_reads vm values out v :
  reindex vm values = Some out → v ∈ values → is_Some (vm !! v).
Proof.
  intros H Hv. apply mapM_Some in H.
  apply list_elem_of_lookup in Hv as [n Hn].
  destruct (Forall2_lookup_l _ _ _ _ _ H Hn) as (y & _ & Hy). eauto.
Qed.

Lemma reindex_fixed vm values :
  (∀ v, v ∈ values → vm !! v = Some v) → reindex vm values = Some values.
Proof.
  intros H. apply mapM_Some. induction values as [|v values IH]; constructor.
  - apply H. left.
  - apply IH. intros w Hw. apply H. by right.
Qed.

Lemma StronglySorted_seqZ m n : StronglySorted Z.le (seqZ m n).
Proof.
  remember (Z.to_nat n) as k eqn:Hk. revert m n Hk.
  induction k as [|k IH]; intros m n Hk.
  - unfold seqZ. rewrite <- Hk. constructor.
  - rewrite seqZ_cons by lia. constructor; [apply IH; lia|].
    apply Forall_forall. intros x Hx. apply elem_of_seqZ in Hx. lia.
Qed.

(** Increasing and distinct identifiers that include 1..n, n being their
    number, are 1..n. *)
Lemma unique_is_range l :
  (∀ x, 1 ≤ x ≤ Z.of_nat (length (unique l)) → x ∈ l) →
  unique l = seqZ 1 (Z.of_nat (length (unique l))).
Proof.
  intros H. symmetry.
  apply (StronglySorted_unique Z.le).
  - apply StronglySorted_seqZ.
  - unfold unique. apply (StronglySorted_merge_sort Z.le).
  - apply submseteq_length_Permutation.
    + apply NoDup_submseteq; [apply NoDup_seqZ|].
      intros x Hx. apply elem_of_seqZ in Hx. apply elem_of_unique, H. lia.
    + rewrite length_seqZ. lia.
Qed.

(** C2. The copy of a receivers survey re-numbers nothing: with the value
    maps that the [tx_id_property] setter builds, and identifiers that
    fit 32 bits, it returns only when the identifiers of the copied
    transmitters are 1..n already, and both arrays then keep their
    values; otherwise line 166, which reads the label of every new number
    in a map keyed by the old identifiers, raises KeyError. With the
    identifiers 1, 2, 3 on both sides and a mask that keeps 2 and 3, the
    copy raises, where the claim has 2 and 3 re-numbered to 1 and 2. *)
Theorem copy_renumbering_defect :
  (∀ paired comp ent p p',
     Forall (fun v => int32 v = v) (ent ++ comp) →
     copy_receivers paired comp ent p = Done tt p' →
     let tx_ids := filter (fun v => v ∈ intersect1d ent comp) comp in
     unique tx_ids = seqZ 1 (Z.of_nat (length (unique tx_ids)))
     ∧ entity_values p' = Some ent
     ∧ complement_values p' = Some tx_ids)
  ∧ (∀ paired,
       surviving Receivers (Some [false; true; true]) [] [1; 2; 3]
       = Some [2; 3]
       ∧ copy_receivers paired [1; 2; 3] [2; 3] no_ids
         = Raised (Exn KeyError "value_map.map[val]")
                  (mkPair (Some [2; 3]) (default_value_map [2; 3])
                          (Some [2; 3]))).
Proof.
  split.
  2: { intros []; split; vm_compute; reflexivity. }
  intros paired comp ent p p' Hrange Hrun tx_ids.
  set (labels := setter_value_map
                   (if paired then Some (setter_value_map None ent) else None)
                   tx_ids).
  revert Hrun. unfold copy_receivers, bind, put.
  fold tx_ids. fold labels.
  unfold copy_tx_ids, bind, get, set_complement_values, set_entity_values,
    set_entity_value_map, modify, raise.
  cbn [entity_values entity_value_map complement_values transmitters_values].
  cbv zeta. fold tx_ids.
  destruct (relabel (value_map_of tx_ids) labels) as [new_map|] eqn:Hrel;
    [|done].
  destruct (reindex (value_map_of tx_ids) tx_ids) as [c'|] eqn:Hc; [|done].
  destruct (reindex (value_map_of tx_ids) ent) as [e'|] eqn:He; [|done].
  intros [= <-]. cbn [entity_values complement_values].
  (* the identifiers fit 32 bits *)
  apply Forall_app in Hrange as [Hent Hcomp].
  assert (∀ a, Forall (fun v => int32 v = v) a → map int32 a = a) as Hwrap.
  { intros a Ha. induction Ha as [|v a Hv _ IH]; [done|]. cbn. by rewrite Hv, IH. }
  assert (Forall (fun v => int32 v = v) tx_ids) as Htx.
  { rewrite Forall_forall in *. intros v Hv. apply Hcomp.
    unfold tx_ids in Hv. by apply list_elem_of_filter in Hv as [_ ?]. }
  (* every identifier kept by the copy is 0 or one of the transmitters *)
  assert (∀ v, v ∈ ent → v = 0 ∨ v ∈ tx_ids) as Hkept.
  { intros v Hv. destruct (reindex_reads _ _ _ v He Hv) as [w Hw].
    destruct (decide (v ∈ tx_ids)) as [|Hn]; [by right|].
    rewrite value_map_of_other in Hw by done. case_decide; [by left|done]. }
  (* every new number is a key of the labels *)
  assert (∀ x, 1 ≤ x ≤ Z.of_nat (length (unique tx_ids)) → x ∈ tx_ids) as Hall.
  { intros x Hx.
    destruct (lookup_lt_is_Some_2 (unique tx_ids) (Z.to_nat (x - 1)))
      as [v Hv]; [lia|].
    pose proof (value_map_of_rank _ _ _ Hv) as Hrank.
    replace (Z.of_nat (S (Z.to_nat (x - 1)))) with x in Hrank by lia.
    destruct (relabel_reads _ _ _ _ _ Hrel Hrank) as [lbl Hlbl].
    assert (x = 0 ∨ x ∈ tx_ids ∨ x ∈ ent) as Hkey.
    { unfold labels, setter_value_map in Hlbl. destruct paired.
      - assert (is_Some (default_value_map ent !! x)) as Hs by eauto.
        apply default_value_map_keys in Hs. rewrite (Hwrap _ Hent) in Hs.
        tauto.
      - assert (is_Some (default_value_map tx_ids !! x)) as Hs by eauto.
        apply default_value_map_keys in Hs. rewrite (Hwrap _ Htx) in Hs.
        tauto. }
    destruct Hkey as [->|[?|Hin]]; [lia|done|].
    destruct (Hkept x Hin) as [->|?]; [lia|done]. }
  pose proof (unique_is_range tx_ids Hall) as Hid.
  split; [exact Hid|].
  (* the value map is the identity on what it is applied to *)
  assert (∀ v, v ∈ tx_ids → value_map_of tx_ids !! v = Some v) as Hfix.
  { intros v Hv. apply elem_of_unique, list_elem_of_lookup in Hv as [i Hi].
    rewrite (value_map_of_rank _ _ _ Hi). f_equal.
    rewrite Hid in Hi. apply lookup_seqZ in Hi as [-> _]. lia. }
  assert (0 ∉ tx_ids) as H0.
  { intros H0. apply elem_of_unique in H0. rewrite Hid in H0.
    apply elem_of_seqZ in H0. lia. }
  rewrite (reindex_fixed _ tx_ids Hfix) in Hc. injection Hc as <-.
  rewrite (reindex_fixed _ ent) in He.
  - injection He as <-. done.
  - intros v Hv. destruct (Hkept v Hv) as [->|?]; [|by apply Hfix].
    rewrite value_map_of_other by done. by rewrite decide_True.
Qed.

Lemma copy_renumbering_defect_witness :
  copy_receivers false [1; 2; 5] [1; 2; 0] no_ids
  = Done tt (final_state (copy_receivers false [1; 2; 5] [1; 2; 0] no_ids))
  ∧ entity_values
      (final_state (copy_receivers false [1; 2; 5] [1; 2; 0] no_ids))
    = Some [1; 2; 0]
  ∧ complement_values
      (final_state (copy_receivers false [1; 2; 5] [1; 2; 0] no_ids))
    = Some [1; 2].
Proof.
  assert (H : copy_receivers false [1; 2; 5] [1; 2; 0] no_ids
              = Done tt (final_state
                           (copy_receivers false [1; 2; 5] [1; 2; 0] no_ids)))
    by (vm_compute; reflexivity).
  split; [exact H|].
  destruct (proj1 copy_renumbering_defect false [1; 2; 5] [1; 2; 0] no_ids
              (final_state (copy_receivers false [1; 2; 5] [1; 2; 0] no_ids)))
    as (_ & He & Hc); [| exact H |].
  - repeat constructor.
  - split; [exact He | exact Hc].
Defined.

End GroundTEMProps.

(** ** Further properties of the workspace tree *)

Module TreeFacts.
Import Tree.

(** The outcomes of [resolve_parent]: it never changes the workspace. *)
Lemma resolve_parent_cases p ws :
  (∃ u, resolve_parent p ws = Done u ws)
  ∨ (p = ByOther ∧ get_entity ws "Workspace" = []
     ∧ ∃ site, resolve_parent p ws = Raised (Exn IndexError site) ws).
Proof.
  destruct p as [u|q|]; cbn; unfold ret; [by left; eexists | by left; eexists |].
  unfold bind, get. destruct (get_entity ws "Workspace") as [|r rs] eqn:E; cbn.
  - right. repeat split. by eexists.
  - left. by eexists.
Qed.

(** [set_parent], step by step, once the parent is resolved. *)
Lemma set_parent_unfold e p ws u :
  resolve_parent p ws = Done u ws →
  set_parent e p ws =
    match tree ws !! e with
    | None => Raised (Exn KeyError "tree[self.uid]") ws
    | Some ne =>
        let t1 := <[e := Node (Some u) (children ne)]> (tree ws) in
        match t1 !! u with
        | None => Raised (Exn KeyError "tree[uid]") (Workspace t1 (entities ws))
        | Some m =>
            Done tt (Workspace
                       (if bool_decide (e ∈ children m) then t1
                        else <[u := Node (parent m) (children m ++ [e])]> t1)
                       (entities ws))
        end
    end.
Proof.
  intros Hres. unfold set_parent, bind. rewrite Hres. cbn.
  destruct (tree ws !! e) as [ne|]; cbn; [|done].
  destruct (<[e:=_]> (tree ws) !! u) as [m|]; cbn; [|done].
  by case_bool_decide.
Qed.

Lemma resolve_parent_entities p ws ws' u :
  resolve_parent p ws = Done u ws → entities ws' = entities ws →
  resolve_parent p ws' = Done u ws'.
Proof.
  destruct p as [v|q|]; cbn; unfold ret; try by intros [= <-].
  unfold bind, get, get_entity. intros H Heq. rewrite Heq.
  revert H. unfold get_entity. destruct (filter _ (entities ws)); cbn; [done|].
  unfold ret. by intros [= <-].
Qed.

(** X1. [set_parent] is idempotent: a call that returned, made again with
    the same arguments, returns and leaves the workspace as the first call
    left it; the child is not listed a second time. *)
Theorem set_parent_idempotent e p ws ws' :
  set_parent e p ws = Done tt ws' → set_parent e p ws' = Done tt ws'.
Proof.
  destruct (resolve_parent_cases p ws) as [[u Hres]|(-> & _ & site & Hres)].
  2: { unfold set_parent, bind. by rewrite Hres. }
  rewrite (set_parent_unfold e p ws u Hres).
  destruct (tree ws !! e) as [ne|] eqn:He; [|done]. cbn zeta.
  destruct (<[e:=_]> (tree ws) !! u) as [m|] eqn:Hu; [|done].
  intros [= <-].
  rewrite (set_parent_unfold e p _ u);
    [|by apply (resolve_parent_entities p ws)].
  cbn [tree entities].
  set (T := if bool_decide (e ∈ children m) then _ else _).
  assert (∃ c m', T !! e = Some (Node (Some u) c)
                  ∧ T !! u = Some m' ∧ e ∈ children m') as (c & m' & HTe & HTu & Hin).
  { subst T. case_bool_decide as Hin.
    - exists (children ne), m. by rewrite lookup_insert_eq.
    - destruct (decide (e = u)) as [->|Hne].
      + rewrite lookup_insert_eq in Hu. injection Hu as <-. cbn.
        eexists _, _. rewrite lookup_insert_eq. split; [done|]. split; [done|].
        cbn. set_solver.
      + eexists _, _. rewrite lookup_insert_ne, !lookup_insert_eq by done.
        split; [done|]. split; [done|]. cbn. set_solver. }
  rewrite HTe. cbn zeta. cbn [children].
  rewrite (insert_id T e _ HTe), HTu.
  by rewrite bool_decide_eq_true_2.
Qed.

Lemma set_parent_idempotent_witness :
  set_parent 4 (ByUid 3) (final_state (set_parent 4 (ByUid 3) tree_ws))
  = Done tt (final_state (set_parent 4 (ByUid 3) tree_ws)).
Proof.
  apply (set_parent_idempotent 4 (ByUid 3) tree_ws). vm_compute. reflexivity.
Defined.

(** X2. When the parent uid has no entry in the tree, [set_parent] raises
    KeyError after the parent of the entity has been overwritten: the
    entity then points to a uid without tree entry, and no children list
    has changed. *)
Theorem set_parent_unknown_parent e p ws u ne :
  resolve_parent p ws = Done u ws →
  tree ws !! e = Some ne →
  tree ws !! u = None →
  ∃ ws', set_parent e p ws = Raised (Exn KeyError "tree[uid]") ws'
    ∧ parent_of ws' e = Some u
    ∧ tree ws' !! u = None
    ∧ entities ws' = entities ws
    ∧ (∀ q, children <$> tree ws' !! q = children <$> tree ws !! q).
Proof.
  intros Hres He Hu.
  assert (e ≠ u) as Hne by congruence.
  rewrite (set_parent_unfold e p ws u Hres), He. cbn zeta.
  rewrite lookup_insert_ne, Hu by done.
  eexists. split; [reflexivity|]. unfold parent_of. cbn.
  rewrite lookup_insert_eq, lookup_insert_ne by done. cbn.
  repeat split; try done.
  intros q. rewrite lookup_insert. case_decide; [|done]. subst q.
  by rewrite He.
Qed.

Lemma set_parent_unknown_parent_witness :
  ∃ ws', set_parent 4 (ByUid 9) tree_ws = Raised (Exn KeyError "tree[uid]") ws'
    ∧ parent_of ws' 4 = Some 9%N
    ∧ tree ws' !! 9%N = None
    ∧ entities ws' = entities tree_ws
    ∧ (∀ q, children <$> tree ws' !! q = children <$> tree tree_ws !! q).
Proof.
  apply (set_parent_unknown_parent 4 (ByUid 9) tree_ws 9 (Node (Some 2%N) []));
    reflexivity.
Defined.

(** X3. [set_parent] raises before writing anything when it has to fall
    back on the root and no entity is named "Workspace" (IndexError), and
    when the entity itself has no tree entry (KeyError): the workspace is
    unchanged. *)
Theorem set_parent_early_errors e p ws :
  (get_entity ws "Workspace" = [] →
     ∃ site, set_parent e ByOther ws = Raised (Exn IndexError site) ws)
  ∧ ((∃ u, resolve_parent p ws = Done u ws) → tree ws !! e = None →
     ∃ site, set_parent e p ws = Raised (Exn KeyError site) ws).
Proof.
  split.
  - intros Hroot. unfold set_parent, bind, resolve_parent, get. cbn.
    rewrite Hroot. cbn. by eexists.
  - intros [u Hres] He. rewrite (set_parent_unfold e p ws u Hres), He.
    by eexists.
Qed.

Lemma set_parent_early_errors_witness :
  (∃ site, set_parent 4 ByOther (Workspace (tree tree_ws) [])
           = Raised (Exn IndexError site) (Workspace (tree tree_ws) []))
  ∧ (∃ site, set_parent 8 (ByUid 3) tree_ws = Raised (Exn KeyError site) tree_ws).
Proof.
  split.
  - apply (set_parent_early_errors 4 ByOther (Workspace (tree tree_ws) [])).
    reflexivity.
  - apply (set_parent_early_errors 8 (ByUid 3) tree_ws); [|reflexivity].
    exists 3%N. reflexivity.
Defined.

(** X4. A call of [set_parent] that returns touches the tree entries of
    the entity and of the new parent only: the entities and the keys of
    the tree are kept and every other entry is unchanged. When the new
    parent is another entity, the entity keeps its children, and the new
    parent keeps its own parent and gains the entity at the end of its
    children unless it is listed already. When the entity is made its own
    parent, which the code accepts, its entry gets itself as parent and
    itself at the end of its children unless it is listed already. *)
Theorem set_parent_frame e p ws u ws' :
  resolve_parent p ws = Done u ws →
  set_parent e p ws = Done tt ws' →
  entities ws' = entities ws
  ∧ dom (tree ws') = dom (tree ws)
  ∧ (∀ q, q ≠ e → q ≠ u → tree ws' !! q = tree ws !! q)
  ∧ (e ≠ u → children <$> tree ws' !! e = children <$> tree ws !! e)
  ∧ (e ≠ u → ∀ m, tree ws !! u = Some m →
       ∃ m', tree ws' !! u = Some m' ∧ parent m' = parent m
         ∧ children m' = if bool_decide (e ∈ children m) then children m
                         else children m ++ [e])
  ∧ (e = u → ∀ m, tree ws !! e = Some m →
       tree ws' !! e
       = Some (Node (Some e)
                    (if bool_decide (e ∈ children m) then children m
                     else children m ++ [e]))).
Proof.
  intros Hres. rewrite (set_parent_unfold e p ws u Hres).
  destruct (tree ws !! e) as [ne|] eqn:He; [|done]. cbn zeta.
  destruct (<[e:=_]> (tree ws) !! u) as [m|] eqn:Hu; [|done].
  intros [= <-]. cbn [tree entities].
  assert (is_Some (tree ws !! u)) as Hsu.
  { rewrite lookup_insert in Hu. case_decide; [subst; eauto | eauto]. }
  split; [done|]. split; [|split; [|split; [|split]]].
  - case_bool_decide; rewrite ?dom_insert_L.
    + apply elem_of_dom_2 in He. set_solver.
    + apply elem_of_dom_2 in He. apply elem_of_dom in Hsu. set_solver.
  - intros q Hqe Hqu. case_bool_decide; by rewrite ?lookup_insert_ne.
  - intros Hne. case_bool_decide;
      rewrite ?(lookup_insert_ne _ u e) by done;
      by rewrite lookup_insert_eq.
  - intros Hne m0 Hm0. rewrite lookup_insert_ne in Hu by done.
    assert (m0 = m) as -> by congruence.
    case_bool_decide.
    + exists m. by rewrite lookup_insert_ne.
    + eexists. rewrite lookup_insert_eq. done.
  - intros <- m0 [= <-]. rewrite lookup_insert_eq in Hu. injection Hu as <-.
    cbn [children parent]. case_bool_decide; by rewrite lookup_insert_eq.
Qed.

Lemma set_parent_frame_witness :
  entities (final_state (set_parent 4 (ByUid 3) tree_ws)) = entities tree_ws
  ∧ dom (tree (final_state (set_parent 4 (ByUid 3) tree_ws))) = dom (tree tree_ws).
Proof.
  destruct (set_parent_frame 4 (ByUid 3) tree_ws 3
              (final_state (set_parent 4 (ByUid 3) tree_ws)))
    as (H1 & H2 & _); [reflexivity | vm_compute; reflexivity |].
  by split.
Defined.

(** X5. After [set_parent] returned, [get_parent] returns the first entity
    registered under the uid the parent argument resolved to. *)
Theorem get_parent_after_set_parent e p ws u ws' q rest :
  resolve_parent p ws = Done u ws →
  set_parent e p ws = Done tt ws' →
  get_entity_uid ws u = q :: rest →
  get_parent e ws' = Done q ws' ∧ uid q = u.
Proof.
  intros Hres Hset Hq.
  assert (uid q = u) as Huid.
  { assert (q ∈ get_entity_uid ws u) as Hin by (rewrite Hq; left).
    unfold get_entity_uid in Hin. by apply list_elem_of_filter in Hin as [? _]. }
  split; [|done].
  revert Hset. rewrite (set_parent_unfold e p ws u Hres).
  destruct (tree ws !! e) as [ne|] eqn:He; [|done]. cbn zeta.
  destruct (<[e:=_]> (tree ws) !! u) as [m|] eqn:Hu; [|done].
  intros [= <-]. unfold get_parent, bind, get. cbn [tree entities].
  assert (∃ c, (if bool_decide (e ∈ children m)
                then <[e:=Node (Some u) (children ne)]> (tree ws)
                else <[u:=Node (parent m) (children m ++ [e])]>
                       (<[e:=Node (Some u) (children ne)]> (tree ws))) !! e
               = Some (Node (Some u) c)) as [c ->].
  { case_bool_decide.
    - eexists. by rewrite lookup_insert_eq.
    - destruct (decide (e = u)) as [->|Hne].
      + rewrite lookup_insert_eq in Hu. injection Hu as <-.
        eexists. by rewrite lookup_insert_eq.
      + eexists. by rewrite lookup_insert_ne, lookup_insert_eq. }
  cbn. unfold get_entity_uid in *. cbn. by rewrite Hq.
Qed.

Lemma get_parent_after_set_parent_witness :
  get_parent 4 (final_state (set_parent 4 ByOther tree_ws))
  = Done (Entity 1 "Workspace") (final_state (set_parent 4 ByOther tree_ws)).
Proof.
  apply (get_parent_after_set_parent 4 ByOther tree_ws 1
           (final_state (set_parent 4 ByOther tree_ws))
           (Entity 1 "Workspace") []); vm_compute; reflexivity.
Defined.

End TreeFacts.

(** ** Further properties of data entities *)

Module DataFacts.
Import DataModel DataProps.

Lemma upper_ascii_idempotent c : upper_ascii (upper_ascii c) = upper_ascii c.
Proof. destruct c as [[] [] [] [] [] [] [] []]; reflexivity. Qed.

Lemma upper_idempotent s : upper (upper s) = upper s.
Proof.
  induction s as [|c s IH]; cbn; [done|].
  by rewrite upper_ascii_idempotent, IH.
Qed.

Lemma association_member_name a :
  association_member (upper (association_name a)) = Some a.
Proof. by destruct a. Qed.

(** X6. The [association] setter takes a name in any letter case: a string
    and its upper-case form give the same result, the name of a member
    gives the same result as the member, a string that names no member
    raises ValueError and a value that is neither a string nor a member
    raises TypeError; the failures change nothing. *)
Theorem set_association_by_name u ws d :
  data ws !! u = Some d →
  (∀ s, set_association u (AssocStr s) ws
        = set_association u (AssocStr (upper s)) ws)
  ∧ (∀ a, set_association u (AssocStr (association_name a)) ws
          = set_association u (AssocEnum a) ws)
  ∧ (∀ s, association_member (upper s) = None →
          ∃ site, set_association u (AssocStr s) ws
                  = Raised (Exn ValueError site) ws)
  ∧ (∃ site, set_association u AssocOther ws = Raised (Exn TypeError site) ws).
Proof.
  intros Hd. unfold set_association, bind.
  rewrite (the_data_registered _ _ _ Hd). repeat split.
  - intros s. by rewrite upper_idempotent.
  - intros a. by rewrite association_member_name.
  - intros s ->. by eexists.
  - by eexists.
Qed.

Lemma set_association_by_name_witness :
  set_association 7 (AssocStr "vertex") ws_float
  = set_association 7 (AssocStr "VERTEX") ws_float.
Proof.
  destruct (set_association_by_name 7 ws_float
              (mkData FLOAT 7 "TMI" (Some 1%N) None false
                      (mkDataType 100 "TMI" FLOAT) None)) as [H _].
  - vm_compute. reflexivity.
  - apply (H "vertex"%string).
Defined.

(** X7. The [association] setter changes the association of its entity and
    nothing else: the other fields and entities, the objects, the store
    and the list of pending writes are kept; in particular the values are
    neither checked nor written. *)
Theorem set_association_frame u value ws ws' d :
  data ws !! u = Some d →
  set_association u value ws = Done tt ws' →
  ∃ a, data ws' = <[u := with_association d a]> (data ws)
    ∧ objects ws' = objects ws
    ∧ store ws' = store ws
    ∧ dirty ws' = dirty ws.
Proof.
  intros Hd. unfold set_association, bind.
  rewrite (the_data_registered _ _ _ Hd).
  destruct value as [s|a|]; cbn.
  - destruct (association_member (upper s)) as [a|]; cbn; [|done].
    intros [= <-]. by exists a.
  - intros [= <-]. by exists a.
  - done.
Qed.

Lemma set_association_frame_witness :
  ∃ a, data ws_cell = <[7%N := with_association
                          (mkData FLOAT 7 "TMI" (Some 1%N) (Some VERTEX) true
                             (mkDataType 100 "TMI" FLOAT)
                             (Some [10; 20; 30; 40]%Z)) a]> (data ws_valued)
    ∧ objects ws_cell = objects ws_valued
    ∧ store ws_cell = store ws_valued
    ∧ dirty ws_cell = dirty ws_valued.
Proof.
  apply (set_association_frame 7 (AssocEnum CELL) ws_valued ws_cell);
    vm_compute; reflexivity.
Defined.

(** X8. [n_values] of an entity whose parent is unset or unknown: 1 for the
    association OBJECT, None for no association, and AttributeError for
    VERTEX, CELL and FACE, which read a count on the parent. *)
Theorem n_values_without_parent u ws d :
  data ws !! u = Some d →
  parent d ≫= (fun p => objects ws !! p) = None →
  match _association d with
  | Some OBJECT => n_values u ws = Done (Some 1%nat) ws
  | None => n_values u ws = Done None ws
  | Some _ => ∃ site, n_values u ws = Raised (Exn AttributeError site) ws
  end.
Proof.
  intros Hd Hp. unfold n_values, bind. rewrite (the_data_registered _ _ _ Hd).
  unfold parent_count. step.
  destruct (_association d) as [[]|]; rewrite ?Hp; try done; by eexists.
Qed.

Lemma n_values_without_parent_witness :
  ∃ site, n_values 5 (mkWorkspace (<[5%N := orphan]> ∅) ∅ ∅ [])
          = Raised (Exn AttributeError site) (mkWorkspace (<[5%N := orphan]> ∅) ∅ ∅ []).
Proof.
  apply (n_values_without_parent 5 (mkWorkspace (<[5%N := orphan]> ∅) ∅ ∅ []) orphan);
    reflexivity.
Defined.

(** X9. An instance [Data.__init__] returns took a uid that was free and
    starts blank: [n_values] and [values] return None, it is not on file,
    it carries the name and the parent given, and a type named "Entity"
    has taken the name of the entity. The descriptor is renamed in place:
    every other registered entity keeps all its fields, except that one
    holding the same descriptor sees the new name; when the type is not
    named "Entity", every other entity is unchanged. *)
Theorem data_init_starts_blank cls t kw fresh u ws ws' :
  data_init cls (Some t) kw fresh ws = Done u ws' →
  data ws !! u = None
  ∧ (∀ v, v ≠ u →
       data ws' !! v
       = (fun d => if bool_decide (type_name t = "Entity"%string)
                      && bool_decide (type_uid (_entity_type d) = type_uid t)
                   then with_type_name d (kw_name kw) else d)
         <$> data ws !! v)
  ∧ (type_name t ≠ "Entity"%string → ∀ v, v ≠ u → data ws' !! v = data ws !! v)
  ∧ n_values u ws' = Done None ws'
  ∧ values u ws' = Done None ws'
  ∧ ∃ d, data ws' !! u = Some d
      ∧ name d = kw_name kw
      ∧ parent d = kw_parent kw
      ∧ _on_file d = false
      ∧ type_name (_entity_type d)
        = if bool_decide (type_name t = "Entity"%string)
          then kw_name kw else type_name t.
Proof.
  destruct (decide (primitive_type t = cls)) as [Hprim|Hne].
  2: { unfold data_init. by rewrite bool_decide_eq_false_2. }
  destruct (data_init_unfold cls t kw fresh ws Hprim)
    as (ws1 & Hdata & _ & _ & _ & ->).
  destruct (data ws !! default fresh (kw_uid kw)) eqn:Hfree; [done|].
  intros [= <- <-]. cbn [data].
  split; [done|].
  assert (∀ v, v ≠ default fresh (kw_uid kw) →
            <[default fresh (kw_uid kw) :=
                mkData cls (default fresh (kw_uid kw)) (kw_name kw)
                  (kw_parent kw) None false
                  (if bool_decide (type_name t = "Entity"%string)
                   then mkDataType (type_uid t) (kw_name kw) (primitive_type t)
                   else t) None]> (data ws1) !! v
            = (fun d => if bool_decide (type_name t = "Entity"%string)
                           && bool_decide (type_uid (_entity_type d) = type_uid t)
                        then with_type_name d (kw_name kw) else d)
              <$> data ws !! v) as Hothers.
  { intros v Hv. by rewrite lookup_insert_ne, Hdata. }
  split; [exact Hothers|].
  split.
  { intros Hname v Hv. rewrite (Hothers v Hv).
    rewrite (bool_decide_eq_false_2 _ Hname). cbn.
    by destruct (data ws !! v). }
  unfold n_values, values, the_data. step. rewrite !lookup_insert_eq. cbn.
  split; [done|]. split; [done|].
  eexists. split; [reflexivity|]. cbn. split_and!; try done.
  by case_bool_decide.
Qed.

Lemma data_init_starts_blank_witness :
  data_init FLOAT (Some float_type) (mkKwargs "TMI" (Some 7%N) (Some 1%N))
            9%N ws_empty = Done 7%N ws_float
  ∧ n_values 7 ws_float = Done None ws_float.
Proof.
  assert (H : data_init FLOAT (Some float_type)
                (mkKwargs "TMI" (Some 7%N) (Some 1%N)) 9%N ws_empty
              = Done 7%N ws_float) by (vm_compute; reflexivity).
  split; [exact H|].
  exact (proj1 (proj2 (proj2 (proj2
    (data_init_starts_blank FLOAT float_type
       (mkKwargs "TMI" (Some 7%N) (Some 1%N)) 9%N 7%N ws_empty ws_float H))))).
Defined.

End DataFacts.

(** ** Further properties of geo-images *)

Module GeoImageFacts.
Import GeoImage GeoImageProps.



(** X11. The [vertices] getter always returns, and reading a second time
    returns the same array and changes nothing more. *)
Theorem vertices_getter_idempotent s :
  ∃ r s1, vertices s = Done r s1 ∧ vertices s1 = Done r s1.
Proof.
  destruct s as [f v i fv d]. rewrite vertices_unfold.
  destruct v as [r|], f, fv as [r'|], i as [[w h]|];
    eexists _, _; (split; [reflexivity|]); by rewrite vertices_unfold.
Qed.

(** X12. With nothing cached, the [vertices] getter of an entity on file
    caches and returns what the file holds, without marking anything for
    writing; an entity that is not on file and has no image has no
    vertices. *)
Theorem vertices_lazy_fetch s :
  _vertices s = None →
  (∀ r, on_file s = true → file_vertices s = Some r →
     vertices s = Done (Some (view_rows r))
                       (mkState true (Some r) (image_size s) (Some r) (dirty s)))
  ∧ (on_file s = false → image_size s = None → vertices s = Done None s).
Proof.
  destruct s as [f v i fv d]. intros Hv. simpl in Hv. subst v. split.
  - intros r Hf Hfile. simpl in Hf, Hfile. subst.
    rewrite vertices_unfold. by destruct i as [[w h]|].
  - intros Hf Hi. simpl in Hf, Hi. subst. by rewrite vertices_unfold.
Qed.

Lemma vertices_lazy_fetch_witness :
  vertices on_disk
  = Done (Some (view_rows (corners 2 3)))
         (mkState true (Some (corners 2 3)) None (Some (corners 2 3)) []).
Proof.
  destruct (vertices_lazy_fetch on_disk) as [H _]; [reflexivity|].
  apply (H (corners 2 3)); reflexivity.
Defined.

(** X13. With nothing cached nor stored, the [vertices] getter of an entity
    with an image of w by h pixels assigns the corners (0, h, 0),
    (w, h, 0), (w, 0, 0), (0, 0, 0) through the setter, which casts them
    to 64-bit floats: reading writes the attribute. *)
Theorem vertices_default_from_image s w h :
  _vertices s = None →
  (on_file s = true → file_vertices s = None) →
  image_size s = Some (w, h) →
  vertices s = Done (Some (view_rows (corners w h)))
                    (mkState (on_file s) (Some (corners w h)) (Some (w, h))
                             (Some (corners w h)) (dirty s ++ ["vertices"%string])).
Proof.
  destruct s as [f v i fv d]. intros Hv Hf Hi. simpl in Hv, Hf, Hi. subst.
  rewrite vertices_unfold. destruct f; [by rewrite Hf|done].
Qed.

Lemma vertices_default_from_image_witness :
  vertices (mkState false None (Some (128, 64)%nat) None [])
  = Done (Some (view_rows (corners 128 64)))
         (mkState false (Some (corners 128 64)) (Some (128, 64)%nat)
                  (Some (corners 128 64)) ["vertices"%string]).
Proof.
  apply (vertices_default_from_image (mkState false None (Some (128, 64)%nat) None []));
    [reflexivity | discriminate | reflexivity].
Defined.

(** X14. [georeference] raises AttributeError without an image, ValueError
    unless the reference is an (n, 2) array with n at least 3, ValueError
    unless the locations are an (n, 3) array for the same n, each time
    leaving the entity unchanged; otherwise it returns with four vertices
    set and marked for writing. *)
Theorem georeference_checks solve reference locations s :
  (image_size s = None →
     ∃ site, georeference solve reference locations s
             = Raised (Exn AttributeError site) s)
  ∧ (is_Some (image_size s) →
     (∀ n, shape reference = [n; 2]%nat → (n < 3)%nat) →
     ∃ site, georeference solve reference locations s
             = Raised (Exn ValueError site) s)
  ∧ (∀ n, is_Some (image_size s) →
     shape reference = [n; 2]%nat → (3 ≤ n)%nat →
     shape locations ≠ [n; 3]%nat →
     ∃ site, georeference solve reference locations s
             = Raised (Exn ValueError site) s)
  ∧ (∀ n size, image_size s = Some size →
     shape reference = [n; 2]%nat → (3 ≤ n)%nat →
     shape locations = [n; 3]%nat →
     ∃ r, georeference solve reference locations s
          = Done tt (mkState (on_file s) (Some r) (image_size s) (Some r)
                             (dirty s ++ ["vertices"%string]))
       ∧ r = fromarrays (georeferenced (solve reference locations size))
       ∧ length r = 4%nat).
Proof.
  unfold georeference, bind, get. repeat split.
  - intros ->. by eexists.
  - intros [size ->] Href.
    destruct (shape reference) as [|n [|c [|? ?]]]; try by eexists.
    destruct (n <? 3)%nat eqn:En; cbn; [by eexists|].
    destruct (c =? 2)%nat eqn:Ec; cbn; [|by eexists].
    apply Nat.eqb_eq in Ec as ->. apply Nat.ltb_ge in En.
    specialize (Href n eq_refl). lia.
  - intros n [size ->] -> Hn Hloc.
    rewrite (proj2 (Nat.ltb_ge n 3)) by done. cbn.
    destruct (shape locations) as [|n' [|c' [|? ?]]]; try by eexists.
    destruct (n =? n')%nat eqn:En; cbn; [|by eexists].
    destruct (c' =? 3)%nat eqn:Ec; cbn; [|by eexists].
    apply Nat.eqb_eq in En as ->. apply Nat.eqb_eq in Ec as ->. done.
  - intros n size Hi -> Hn ->. rewrite Hi.
    rewrite (proj2 (Nat.ltb_ge n 3)) by done. cbn.
    rewrite Nat.eqb_refl. cbn [negb orb].
    unfold set_vertices. cbn [as_ndarray].
    rewrite bool_decide_eq_true_2 by done.
    eexists. split; [|split; reflexivity].
    unfold bind, set__vertices, update_attribute, modify. cbn.
    by rewrite Hi.
Qed.

Lemma georeference_checks_witness :
  (∃ site, georeference (fun _ _ _ _ _ => 0%Q) three_pixels three_points constructed
           = Raised (Exn AttributeError site) constructed)
  ∧ (∃ r, georeference (fun _ _ _ _ _ => 0%Q) three_pixels three_points
            (mkState false None (Some (128, 64)%nat) None [])
          = Done tt (mkState false (Some r) (Some (128, 64)%nat) (Some r)
                             ["vertices"%string])
        ∧ length r = 4%nat)
  ∧ (∃ site, georeference (fun _ _ _ _ _ => 0%Q) three_pixels
               (mkArray [3]%nat (fun _ => 0%Q))
               (mkState false None (Some (128, 64)%nat) None [])
             = Raised (Exn ValueError site)
                      (mkState false None (Some (128, 64)%nat) None [])).
Proof.
  split; [|split].
  - apply (georeference_checks (fun _ _ _ _ _ => 0%Q) three_pixels three_points
             constructed). reflexivity.
  - destruct (georeference_checks (fun _ _ _ _ _ => 0%Q) three_pixels three_points
                (mkState false None (Some (128, 64)%nat) None []))
      as (_ & _ & _ & H).
    destruct (H 3%nat (128, 64)%nat) as (r & Hr & _ & Hlen);
      [reflexivity | reflexivity | lia | reflexivity |].
    exists r. by split.
  - destruct (georeference_checks (fun _ _ _ _ _ => 0%Q) three_pixels
                (mkArray [3]%nat (fun _ => 0%Q))
                (mkState false None (Some (128, 64)%nat) None []))
      as (_ & _ & H & _).
    apply (H 3%nat); [by eexists | reflexivity | lia | discriminate].
Defined.

(** X15. The [cells] getter always returns, and a second read returns the
    same; an entity that is not on file always has cells, and when none
    were set these are the two triangles (0, 1, 2, 0) and (0, 2, 3, 0),
    which the getter also writes. *)
Theorem cells_getter_stable s :
  ∃ r s1, cells s = Done r s1
    ∧ cells s1 = Done r s1
    ∧ (c_on_file s = false → is_Some r)
    ∧ (c_on_file s = false → _cells s = None →
       r = Some default_cells
       ∧ file_cells s1 = Some default_cells
       ∧ c_dirty s1 = c_dirty s ++ ["cells"%string]).
Proof.
  destruct s as [[] [c|] fc d]; unfold cells, bind, get; cbn.
  - eexists _, _. by split_and!.
  - destruct fc as [c|]; eexists _, _; by split_and!.
  - eexists _, _. by split_and!.
  - eexists _, _. by split_and!.
Qed.

End GeoImageFacts.

(** ** Further properties of survey metadata *)

Module EMSurveyFacts.
Import EMSurvey EMSurveyProps.

Lemma with_metadata_same s : with_metadata s (metadata s) = s.
Proof. by destruct s. Qed.

Lemma put_survey_same ws self s :
  surveys ws !! self = Some s → put_survey ws self s = ws.
Proof.
  intros Hs. unfold put_survey. rewrite insert_id by done. by destruct ws.
Qed.

Lemma em_of_metadata s em :
  em_of s = Some em → metadata s !! "EM Dataset"%string = Some (PDict em).
Proof.
  unfold em_of. destruct (metadata s !! _) as [[]|]; try done. by intros [= ->].
Qed.

Lemma with_em_same s em : em_of s = Some em → with_em s em = s.
Proof.
  intros H%em_of_metadata. unfold with_em.
  rewrite insert_id by done. apply with_metadata_same.
Qed.

Lemma with_em_with_em s a b : with_em (with_em s a) b = with_em s b.
Proof. unfold with_em, with_metadata. cbn. by rewrite insert_insert_eq. Qed.

Lemma em_of_with_em s em : em_of (with_em s em) = Some em.
Proof. unfold em_of, with_em. cbn. by rewrite lookup_insert_eq. Qed.

Lemma put_survey_put_survey ws self a b :
  put_survey (put_survey ws self a) self b = put_survey ws self b.
Proof. unfold put_survey. cbn. by rewrite insert_insert_eq. Qed.

Lemma em_dataset_registered self ws s em :
  surveys ws !! self = Some s → em_of s = Some em →
  em_dataset self ws = Done em ws.
Proof.
  intros Hs Hem%em_of_metadata. unfold em_dataset, the_survey. step.
  rewrite Hs. cbn. by rewrite Hem.
Qed.

Lemma set_em_dataset_registered self ws s d :
  surveys ws !! self = Some s →
  set_em_dataset self d ws = Done tt (put_survey ws self (with_em s d)).
Proof.
  intros Hs. unfold set_em_dataset, the_survey, set_survey. step.
  by rewrite Hs.
Qed.

(** One plain entry of [edit_metadata]. *)
Lemma edit_entry_plain self key value ws s em :
  plain_key key → surveys ws !! self = Some s → em_of s = Some em →
  edit_entry self key value ws
  = Done tt (put_survey ws self (with_em s (plain_edit key value em))).
Proof.
  intros Hk Hs Hem. unfold edit_entry.
  rewrite bool_decide_eq_false_2 by (intros H; apply Hk; set_solver).
  rewrite bool_decide_eq_false_2 by (intros ->; apply Hk; set_solver).
  pose proof (em_dataset_registered self ws s em Hs Hem) as Hd.
  destruct value; unfold bind at 1; rewrite Hd;
    try by apply set_em_dataset_registered.
  case_bool_decide as Hin; [by apply set_em_dataset_registered|].
  unfold ret, plain_edit. f_equal.
  rewrite delete_id by (by apply eq_None_not_Some).
  by rewrite with_em_same, put_survey_same.
Qed.

(** One of the keys kept under "Waveform". *)
Lemma edit_entry_waveform self key value ws s em :
  key ∈ ["Discretization"; "Timing mark"; "Waveform"]%string →
  surveys ws !! self = Some s → em_of s = Some em →
  match waveform_edit key value em with
  | Some em' =>
      edit_entry self key value ws = Done tt (put_survey ws self (with_em s em'))
  | None =>
      ∃ site, edit_entry self key value ws = Raised (Exn TypeError site) ws
  end.
Proof.
  intros Hk Hs Hem.
  pose proof (em_dataset_registered self ws s em Hs Hem) as Hd.
  unfold waveform_edit.
  destruct (em !! "Waveform"%string) as [w|] eqn:Hw.
  - assert (edit_entry self key value ws =
            match w with
            | PDict w' =>
                set_em_dataset self
                  (<["Waveform"%string := PDict (<[wave_key key := value]> w')]> em) ws
            | _ => Raised (Exn TypeError "object does not support item assignment") ws
            end) as ->.
    { unfold edit_entry. rewrite bool_decide_eq_true_2 by done.
      unfold bind. rewrite Hd. cbv beta iota.
      rewrite bool_decide_eq_true_2 by eauto. unfold ret at 1. cbv beta iota.
      rewrite Hd. cbv beta iota. rewrite Hw. destruct w; reflexivity. }
    destruct w; try by eexists. by apply set_em_dataset_registered.
  - unfold edit_entry. rewrite bool_decide_eq_true_2 by done.
    unfold bind. rewrite Hd. cbv beta iota.
    rewrite bool_decide_eq_false_2 by (rewrite Hw; by intros [? ?]).
    rewrite (set_em_dataset_registered self ws s _ Hs). cbv beta iota.
    rewrite (em_dataset_registered self _ (with_em s (<["Waveform"%string := PDict ∅]> em))
               (<["Waveform"%string := PDict ∅]> em));
      [|by (unfold put_survey; cbn; rewrite lookup_insert_eq)
       |by apply em_of_with_em].
    cbv beta iota. rewrite lookup_insert_eq.
    rewrite (set_em_dataset_registered self _
               (with_em s (<["Waveform"%string := PDict ∅]> em)));
      [|by (unfold put_survey; cbn; rewrite lookup_insert_eq)].
    by rewrite with_em_with_em, put_survey_put_survey, insert_insert_eq.
Qed.

(** Handing the metadata over leaves the record of the survey as it is. *)
Lemma propagate_self self paired ws ws' :
  propagate self paired ws = Done tt ws' →
  surveys ws' !! self = surveys ws !! self.
Proof.
  intros (s & Hs & H)%propagate_done.
  destruct (paired s) as [r|]; [|by subst].
  destruct H as (sr & Hr & ->).
  destruct (decide (r = self)) as [->|Hne].
  - rewrite lookup_insert_eq, Hs. assert (sr = s) as -> by congruence.
    by rewrite with_metadata_same.
  - by rewrite lookup_insert_ne.
Qed.

Lemma paired_ok_put self ws s s' :
  paired_ok self ws → surveys ws !! self = Some s →
  receivers s' = receivers s → transmitters s' = transmitters s →
  is_Some (em_of s') →
  paired_ok self (put_survey ws self s').
Proof.
  intros (s0 & em0 & Hs0 & _ & Hrx & Htx) Hs Hr Ht [em Hem].
  assert (s0 = s) as -> by congruence.
  exists s', em. unfold put_survey. cbn. rewrite lookup_insert_eq.
  split; [done|]. split; [by apply em_of_metadata|]. split.
  - intros r Hr'. rewrite lookup_insert. case_decide; [done|].
    apply Hrx. congruence.
  - intros t Ht'. rewrite lookup_insert. case_decide; [done|].
    apply Htx. congruence.
Qed.

(** A single entry, once its turn of the loop has returned. *)
Lemma edit_metadata_single self key value ws ws1 :
  edit_entry self key value ws = Done tt ws1 → paired_ok self ws1 →
  ∃ ws', edit_metadata self [(key, value)] ws = Done tt ws'
    ∧ surveys ws' !! self = surveys ws1 !! self.
Proof.
  intros Hentry (s & em & Hs & _ & Hrx & Htx).
  unfold edit_metadata. cbn. unfold bind at 1. unfold bind at 1.
  rewrite Hentry. unfold ret at 1.
  destruct (propagate_returns self receivers ws1) as (ws2 & H2 & Hreg & Hkeep).
  { intros s0 r Hs0. assert (s0 = s) as -> by congruence. apply Hrx. }
  { eauto. }
  unfold bind at 1. rewrite H2.
  pose proof (propagate_self _ _ _ _ H2) as Hself2.
  destruct (propagate_returns self transmitters ws2) as (ws3 & H3 & _).
  { intros s0 t Hs0 Ht. assert (s0 = s) as -> by congruence.
    apply Hreg. by apply Htx. }
  { rewrite Hself2. eauto. }
  exists ws3. split; [done|].
  rewrite (propagate_self _ _ _ _ H3). done.
Qed.

(** One plain entry, through [edit_metadata]. *)
Lemma edit_metadata_plain self key value ws s em :
  paired_ok self ws → plain_key key →
  surveys ws !! self = Some s → em_of s = Some em →
  ∃ ws', edit_metadata self [(key, value)] ws = Done tt ws'
    ∧ surveys ws' !! self = Some (with_em s (plain_edit key value em)).
Proof.
  intros Hok Hk Hs Hem.
  destruct (edit_metadata_single self key value ws
              (put_survey ws self (with_em s (plain_edit key value em))))
    as (ws' & H & Hself).
  - by apply edit_entry_plain.
  - eapply paired_ok_put; eauto. rewrite em_of_with_em. eauto.
  - exists ws'. split; [done|]. rewrite Hself. unfold put_survey. cbn.
    by rewrite lookup_insert_eq.
Qed.

(** X16. [edit_metadata] with one key that is neither "Property groups" nor
    one of the three waveform keys returns, and sets the key in
    "EM Dataset" to the value, or removes the key when the value is None. *)
Theorem edit_metadata_plain_key self key value ws s em :
  paired_ok self ws → plain_key key →
  surveys ws !! self = Some s → em_of s = Some em →
  ∃ ws', edit_metadata self [(key, value)] ws = Done tt ws'
    ∧ surveys ws' !! self = Some (with_em s (plain_edit key value em)).
Proof.
  intros Hok Hk Hs Hem.
  pose proof (edit_entry_plain self key value ws s em Hk Hs Hem) as Hentry.
  assert (paired_ok self
            (put_survey ws self (with_em s (plain_edit key value em)))) as Hok'.
  { eapply paired_ok_put; eauto. rewrite em_of_with_em. eauto. }
  destruct (edit_metadata_single self key value ws _ Hentry Hok')
    as (ws' & H & Hself).
  exists ws'. split; [done|]. rewrite Hself. unfold put_survey. cbn.
  by rewrite lookup_insert_eq.
Qed.

Lemma edit_metadata_plain_key_witness :
  ∃ ws', edit_metadata 10 [("Unit"%string, PNone)] survey_ws = Done tt ws'
    ∧ surveys ws' !! 10%N = Some (with_em rx0 (delete "Unit"%string em0)).
Proof.
  apply (edit_metadata_plain_key 10 "Unit"%string PNone survey_ws rx0 em0).
  - exists rx0, em0. repeat split; try reflexivity.
    + intros r. discriminate.
    + intros t [= <-]. by eexists.
  - unfold plain_key. intros H. apply list_elem_of_In in H. cbn in H.
    repeat destruct H as [H|H]; done.
  - reflexivity.
  - reflexivity.
Defined.

(** X17. [edit_metadata] with one of the keys "Discretization",
    "Timing mark" and "Waveform" stores the value inside the dictionary
    "Waveform" of "EM Dataset", created when absent, the key "Waveform"
    itself going to "Discretization"; it raises TypeError, changing
    nothing, when the entry "Waveform" is not a dictionary. *)
Theorem edit_metadata_waveform_key self key value ws s em :
  paired_ok self ws →
  key ∈ ["Discretization"; "Timing mark"; "Waveform"]%string →
  surveys ws !! self = Some s → em_of s = Some em →
  match waveform_edit key value em with
  | Some em' =>
      ∃ ws', edit_metadata self [(key, value)] ws = Done tt ws'
        ∧ surveys ws' !! self = Some (with_em s em')
        ∧ ∃ w, em' !! "Waveform"%string = Some (PDict w)
             ∧ w !! wave_key key = Some value
  | None =>
      ∃ site, edit_metadata self [(key, value)] ws
              = Raised (Exn TypeError site) ws
  end.
Proof.
  intros Hok Hk Hs Hem.
  pose proof (edit_entry_waveform self key value ws s em Hk Hs Hem) as He.
  destruct (waveform_edit key value em) as [em'|] eqn:Hwave.
  - destruct (edit_metadata_single self key value ws
                (put_survey ws self (with_em s em'))) as (ws' & H & Hself);
      [done| |].
    { eapply paired_ok_put; eauto. rewrite em_of_with_em. eauto. }
    exists ws'. split; [done|]. split.
    { rewrite Hself. unfold put_survey. cbn. by rewrite lookup_insert_eq. }
    unfold waveform_edit in Hwave.
    destruct (em !! "Waveform"%string) as [[]|]; try done;
      injection Hwave as <-; eexists; by rewrite !lookup_insert_eq.
  - destruct He as [site He]. exists site.
    unfold edit_metadata. cbn. unfold bind. by rewrite He.
Qed.

Lemma edit_metadata_waveform_key_witness :
  ∃ ws', edit_metadata 10 [("Waveform"%string, PNone)] survey_ws = Done tt ws'
    ∧ surveys ws' !! 10%N
      = Some (with_em rx0 (<["Waveform"%string :=
                             PDict (<["Discretization"%string := PNone]> ∅)]> em0)).
Proof.
  pose proof (edit_metadata_waveform_key 10 "Waveform"%string PNone survey_ws
                rx0 em0) as H.
  destruct H as (ws' & H1 & H2 & _).
  - exists rx0, em0. repeat split; try reflexivity.
    + intros r. discriminate.
    + intros t [= <-]. by eexists.
  - apply list_elem_of_In. cbn. tauto.
  - reflexivity.
  - reflexivity.
  - by exists ws'.
Defined.

(** X18. [edit_metadata] with {"Property groups": None} empties the recorded
    list of group names and then raises TypeError: the list stays
    emptied. *)
Theorem edit_metadata_groups_none self ws s em :
  surveys ws !! self = Some s → em_of s = Some em →
  ∃ site, edit_metadata self [("Property groups"%string, PNone)] ws
          = Raised (Exn TypeError site)
              (put_survey ws self
                 (with_em s (<["Property groups"%string := PList []]> em))).
Proof.
  intros Hs Hem. unfold edit_metadata. cbn [for_each fst snd].
  unfold edit_entry.
  rewrite bool_decide_eq_false_2
    by (intros H; apply list_elem_of_In in H; cbn in H;
        repeat destruct H as [H|H]; done).
  rewrite bool_decide_eq_true_2 by done.
  unfold _edit_validate_property_groups. cbn [for_each].
  unfold bind. rewrite (em_dataset_registered self ws s em Hs Hem).
  cbv beta iota.
  rewrite (set_em_dataset_registered self ws s _ Hs). by eexists.
Qed.

Lemma edit_metadata_groups_none_witness :
  ∃ site, edit_metadata 10 [("Property groups"%string, PNone)]
            (final_state (add_component_data 10 component_A survey_ws))
          = Raised (Exn TypeError site)
              (put_survey (final_state (add_component_data 10 component_A survey_ws)) 10
                 (with_em
                    (mkSurvey
                       (<["EM Dataset"%string :=
                            PDict (<["Property groups"%string := PList [PStr "A"]]> em0)]> ∅)
                       [mkGroup "A" [21; 22]%N] [21; 22; 23]%N None (Some 11%N))
                    (<["Property groups"%string := PList []]>
                       (<["Property groups"%string := PList [PStr "A"]]> em0)))).
Proof.
  apply edit_metadata_groups_none; vm_compute; reflexivity.
Defined.

(** X19. Channels set are the channels read: the setter accepts a list or an
    array of floats, which the getter then returns as a list; a list with
    an element that is not a float and a value that is neither list nor
    array raise TypeError and change nothing. *)
Theorem channels_round_trip self values l ws :
  values = ChannelsList l ∨ values = ChannelsArray l →
  (forallb is_float l = true → paired_ok self ws →
     ∃ ws', set_channels self values ws = Done tt ws'
       ∧ channels self ws' = Done (PList l) ws')
  ∧ (forallb is_float l = false →
     ∃ site, set_channels self values ws = Raised (Exn TypeError site) ws)
  ∧ (∃ site, set_channels self ChannelsOther ws = Raised (Exn TypeError site) ws).
Proof.
  intros Hv. split; [|split].
  - intros Hf Hok. pose proof Hok as (s & em & Hs & Hem & _).
    assert (set_channels self values ws
            = edit_metadata self [("Channels"%string, PList l)] ws) as ->.
    { destruct Hv as [-> | ->]; cbn; by rewrite Hf. }
    destruct (edit_metadata_plain self "Channels" (PList l) ws s em)
      as (ws' & H & Hself); [done| |done| |].
    { intros H. apply list_elem_of_In in H. cbn in H.
      repeat destruct H as [H|H]; done. }
    { unfold em_of. by rewrite Hem. }
    exists ws'. split; [done|].
    eapply channels_registered; [exact Hself|].
    unfold channels_of, with_em. cbn. by rewrite !lookup_insert_eq.
  - intros Hf. destruct Hv as [-> | ->]; cbn; rewrite Hf; by eexists.
  - by eexists.
Qed.

Lemma channels_round_trip_witness :
  (∃ ws', set_channels 10 (ChannelsArray [PFloat 5; PFloat 10]) survey_ws = Done tt ws'
     ∧ channels 10 ws' = Done (PList [PFloat 5; PFloat 10]) ws')
  ∧ (∃ site, set_channels 10 (ChannelsList [PFloat 5; PStr "late"]) survey_ws
             = Raised (Exn TypeError site) survey_ws).
Proof.
  split.
  - destruct (channels_round_trip 10 (ChannelsArray [PFloat 5; PFloat 10])
                [PFloat 5; PFloat 10] survey_ws) as (H & _); [by right|].
    apply H; [reflexivity|].
    exists rx0, em0. repeat split; try reflexivity.
    + intros r. discriminate.
    + intros t [= <-]. by eexists.
  - destruct (channels_round_trip 10 (ChannelsList [PFloat 5; PStr "late"])
                [PFloat 5; PStr "late"] survey_ws) as (_ & H & _); [by left|].
    by apply H.
Defined.

(** X20. The [unit] setter does nothing when the class has no default units,
    raises ValueError, changing nothing, for a unit that is not one of
    them, and otherwise stores the unit, which the getter returns. *)
Theorem unit_round_trip default_units self value ws :
  (default_units = None → set_unit default_units self value ws = Done tt ws)
  ∧ (∀ units, default_units = Some units → value ∉ units →
       ∃ site, set_unit default_units self value ws
               = Raised (Exn ValueError site) ws)
  ∧ (∀ units, default_units = Some units → value ∈ units → paired_ok self ws →
       ∃ ws', set_unit default_units self value ws = Done tt ws'
         ∧ unit_of self ws' = Done (Some (PStr value)) ws').
Proof.
  split; [|split].
  - by intros ->.
  - intros units -> Hin. cbn. rewrite bool_decide_eq_false_2 by done. by eexists.
  - intros units -> Hin Hok. cbn. rewrite bool_decide_eq_true_2 by done.
    pose proof Hok as (s & em & Hs & Hem & _).
    destruct (edit_metadata_plain self "Unit" (PStr value) ws s em)
      as (ws' & H & Hself); [done| |done| |].
    { intros H. apply list_elem_of_In in H. cbn in H.
      repeat destruct H as [H|H]; done. }
    { unfold em_of. by rewrite Hem. }
    exists ws'. split; [done|].
    unfold unit_of, bind.
    rewrite (em_dataset_registered self ws' _ _ Hself (em_of_with_em _ _)).
    cbn [plain_edit]. rewrite bool_decide_eq_true_2
      by (rewrite lookup_insert_eq; eauto).
    rewrite (em_dataset_registered self ws' _ _ Hself (em_of_with_em _ _)).
    cbn [plain_edit]. by rewrite lookup_insert_eq.
Qed.

Lemma unit_round_trip_witness :
  set_unit None 10 "Seconds (s)" survey_ws = Done tt survey_ws
  ∧ (∃ site, set_unit (Some ["Seconds (s)"; "Milliseconds (ms)"]%string) 10
               "hours" survey_ws = Raised (Exn ValueError site) survey_ws)
  ∧ (∃ ws', set_unit (Some ["Seconds (s)"; "Milliseconds (ms)"]%string) 10
              "Seconds (s)" survey_ws = Done tt ws'
        ∧ unit_of 10 ws' = Done (Some (PStr "Seconds (s)")) ws').
Proof.
  split; [|split].
  - by apply (unit_round_trip None 10 "Seconds (s)" survey_ws).
  - destruct (unit_round_trip (Some ["Seconds (s)"; "Milliseconds (ms)"]%string)
                10 "hours" survey_ws) as (_ & H & _).
    apply (H _ eq_refl). intros Hin. apply list_elem_of_In in Hin. cbn in Hin.
    repeat destruct Hin as [Hin|Hin]; done.
  - destruct (unit_round_trip (Some ["Seconds (s)"; "Milliseconds (ms)"]%string)
                10 "Seconds (s)" survey_ws) as (_ & _ & H).
    apply (H _ eq_refl).
    + apply list_elem_of_In. cbn. tauto.
    + exists rx0, em0. repeat split; try reflexivity.
      * intros r. discriminate.
      * intros t [= <-]. by eexists.
Defined.

Lemma kd_of_record self {A} (m : M workspace A) :
  keeps_record self m → keeps_distinct self m.
Proof.
  intros Hr ws Hd s l Hs. rewrite (Hr ws) in Hs. by apply Hd.
Qed.

Lemma kd_bind self {A B} (m : M workspace A) (k : A → M workspace B) :
  keeps_distinct self m → (∀ a, keeps_distinct self (k a)) →
  keeps_distinct self (bind m k).
Proof.
  intros Hm Hk ws Hd. unfold bind. specialize (Hm ws Hd).
  destruct (m ws) as [a ws1|e ws1]; [|done]. by apply Hk.
Qed.

Lemma kd_ret self {A} (a : A) : keeps_distinct self (ret a).
Proof. by intros ws. Qed.

Lemma kd_raise self {A} c site : keeps_distinct self (raise c site : M workspace A).
Proof. by intros ws. Qed.

Lemma kd_for_each self {A} (l : list A) body :
  (∀ x, keeps_distinct self (body x)) → keeps_distinct self (for_each l body).
Proof.
  intros Hb. induction l as [|x l IH]; cbn; [apply kd_ret|].
  apply kd_bind; [apply Hb | intros _; apply IH].
Qed.

Lemma nd_read self ws s em l :
  names_distinct self ws → surveys ws !! self = Some s → em_of s = Some em →
  em !! "Property groups"%string = Some (PList l) → NoDup l.
Proof.
  intros Hd Hs Hem Hl. apply (Hd s l Hs).
  unfold metadata_groups. by rewrite (em_of_metadata _ _ Hem), Hl.
Qed.

Lemma nd_put self ws s d :
  (∀ l, d !! "Property groups"%string = Some (PList l) → NoDup l) →
  names_distinct self (put_survey ws self (with_em s d)).
Proof.
  intros Hd s' l. unfold put_survey. cbn. rewrite lookup_insert_eq.
  intros [= <-]. unfold metadata_groups, with_em. cbn.
  rewrite lookup_insert_eq. destruct (d !! _) as [[]|] eqn:E; try done.
  intros [= <-]. by apply Hd.
Qed.

(** A block that reads "EM Dataset" and goes on with it. *)
Lemma kd_em_block self {A} (K : gmap string pyval → M workspace A) :
  (∀ ws s em, surveys ws !! self = Some s → em_of s = Some em →
     names_distinct self ws → names_distinct self (final_state (K em ws))) →
  keeps_distinct self (bind (em_dataset self) K).
Proof.
  intros HK ws Hd. unfold bind, em_dataset at 1, the_survey. step.
  destruct (surveys ws !! self) as [s|] eqn:Hs; cbn; [|done].
  destruct (metadata s !! "EM Dataset"%string) as [v|] eqn:Hm; cbn; [|done].
  destruct v; cbn; try done.
  apply (HK ws s); [done| |done]. unfold em_of. by rewrite Hm.
Qed.

Lemma kd_set_em self ws s em d :
  surveys ws !! self = Some s → em_of s = Some em →
  names_distinct self ws →
  (∀ l, d !! "Property groups"%string = Some (PList l) →
        em !! "Property groups"%string = Some (PList l)
        ∨ NoDup l) →
  names_distinct self (final_state (set_em_dataset self d ws)).
Proof.
  intros Hs Hem Hd Hl. rewrite (set_em_dataset_registered self ws s d Hs). cbn.
  apply nd_put. intros l Hdl. destruct (Hl l Hdl) as [H|H]; [|done].
  by eapply nd_read.
Qed.

Lemma kr_the_survey self u : keeps_record self (the_survey u).
Proof.
  intros ws. enough (final_state (the_survey u ws) = ws) as -> by done.
  unfold the_survey. step. by destruct (surveys ws !! u) eqn:Hu.
Qed.

Lemma kr_channels self : keeps_record self (channels self).
Proof.
  intros ws. enough (final_state (channels self ws) = ws) as -> by done.
  unfold channels, em_dataset, the_survey. step.
  destruct (surveys ws !! self) as [s|] eqn:Hs; cbn; [|done].
  destruct (metadata s !! _) as [[ | | | | |d| ]|]; cbn; try done.
  by destruct (d !! _).
Qed.

Lemma kr_py_len self c : keeps_record self (py_len c).
Proof. intros ws. by destruct c. Qed.

Lemma kr_py_contains self c nm : keeps_record self (py_contains c nm).
Proof. intros ws. by destruct c. Qed.

Lemma kd_find_or_create self nm :
  keeps_distinct self (find_or_create_property_group self nm).
Proof.
  intros ws Hd. unfold find_or_create_property_group, the_survey, set_survey. step.
  destruct (surveys ws !! self) as [s|] eqn:Hs; cbn; [|done].
  destruct (List.find _ _); cbn; [done|].
  intros s' l. cbn. rewrite lookup_insert_eq. intros [= <-]. apply (Hd s l Hs).
Qed.

Lemma existsb_is_str nm l : existsb (is_str nm) l = false → PStr nm ∉ l.
Proof.
  induction l as [|x l IH]; cbn; [intros _; by apply not_elem_of_nil|].
  intros [Hx Hl]%orb_false_elim. apply not_elem_of_cons. split; [|by apply IH].
  intros <-. cbn in Hx. by rewrite bool_decide_eq_true_2 in Hx.
Qed.

(** Lines 247-254: the check of the channel count and the recording of
    the name. *)
Lemma kd_record_name self g :
  keeps_distinct self
    (ch <- channels self ;;
     n <- py_len ch ;;
     if bool_decide (length (properties g) = n) then
       em <- em_dataset self ;;
       match em !! "Property groups"%string with
       | None => raise KeyError "Property groups"
       | Some pgs =>
           known <- py_contains pgs (pg_name g) ;;
           if known then ret tt
           else
             match pgs with
             | PList l =>
                 set_em_dataset self
                   (<["Property groups"%string := PList (l ++ [PStr (pg_name g)])]> em)
             | _ => raise AttributeError "object has no attribute 'append'"
             end
       end
     else raise ValueError "Number of properties differ from the number of 'channels'").
Proof.
  apply kd_bind; [apply kd_of_record, kr_channels|]. intros ch.
  apply kd_bind; [apply kd_of_record, kr_py_len|]. intros n.
  case_bool_decide; [|apply kd_raise].
  apply kd_em_block. intros ws s em Hs Hem Hd.
  destruct (em !! "Property groups"%string) as [pgs|] eqn:Hp; [|done].
  destruct pgs as [|t|q|u|l|d|g']; try done.
  - unfold bind, py_contains, ret. by destruct (is_substring (pg_name g) t).
  - unfold bind, py_contains, ret.
    destruct (existsb (is_str (pg_name g)) l) eqn:Hex; [done|].
    eapply kd_set_em; [done..|].
    intros l'. rewrite lookup_insert_eq. intros [= <-]. right.
    apply NoDup_app. split; [by eapply nd_read|]. split.
    + intros x Hx ->%list_elem_of_singleton. by apply existsb_is_str in Hex.
    + apply NoDup_singleton.
  - cbn. by case_bool_decide.
Qed.

Lemma kd_edit_validate self value :
  keeps_distinct self (_edit_validate_property_groups self value).
Proof.
  unfold _edit_validate_property_groups.
  apply kd_bind.
  { destruct value; try apply kd_ret.
    apply kd_em_block. intros ws s em Hs Hem Hd.
    eapply kd_set_em; [done..|].
    intros l. rewrite lookup_insert_eq. intros [= <-]. right. constructor. }
  intros _. apply kd_for_each. intros val.
  apply kd_bind; [|intros g; apply kd_record_name].
  destruct val; try apply kd_raise; [|apply kd_ret].
  apply kd_bind; [apply kd_of_record, kr_the_survey|]. intros sv.
  case_bool_decide; [apply kd_find_or_create | apply kd_raise].
Qed.

Lemma kd_edit_entry self key value : keeps_distinct self (edit_entry self key value).
Proof.
  unfold edit_entry. case_bool_decide as Hw.
  - apply kd_em_block. intros ws s em Hs Hem Hd.
    match goal with
    | |- names_distinct _ (final_state (bind _ ?k ws)) =>
        assert (Hk : keeps_distinct self (k tt))
    end.
    { apply kd_em_block. intros ws1 s1 em1 Hs1 Hem1 Hd1.
      destruct (em1 !! "Waveform"%string) as [[]|]; try done.
      eapply kd_set_em; [done..|].
      intros l. rewrite lookup_insert_ne by done. by left. }
    case_bool_decide.
    + apply Hk, Hd.
    + unfold bind at 1.
      assert (Hd1 : names_distinct self (final_state
                 (set_em_dataset self (<["Waveform"%string := PDict ∅]> em) ws))).
      { eapply kd_set_em; [done..|].
        intros l. rewrite lookup_insert_ne by done. by left. }
      rewrite (set_em_dataset_registered self ws s _ Hs) in Hd1 |- *.
      apply Hk, Hd1.
  - case_bool_decide as Hp; [apply kd_edit_validate|].
    destruct value as [|t|q|u|vs|d|g].
    1: { apply kd_em_block. intros ws s em Hs Hem Hd.
         case_bool_decide; [|done].
         eapply kd_set_em; [done..|].
         intros l. rewrite lookup_delete_ne by done. by left. }
    all: apply kd_em_block; intros ws s em Hs Hem Hd;
      (eapply kd_set_em; [done..|]);
      intros l; rewrite lookup_insert_ne by done; by left.
Qed.

Lemma kr_propagate self paired : keeps_record self (propagate self paired).
Proof.
  intros ws. destruct (propagate self paired ws) as [[] ws'|e ws'] eqn:H; cbn.
  - by apply propagate_self in H.
  - enough (ws' = ws) as -> by done.
    revert H. unfold propagate, set_metadata, the_survey, set_survey. step.
    destruct (surveys ws !! self) as [s|] eqn:Hs; cbn; [|by intros [= _ <-]].
    destruct (paired s) as [r|]; cbn; [|done].
    rewrite Hs; cbn.
    destruct (surveys ws !! r) eqn:Hr; cbn; [done|by intros [= _ <-]].
Qed.

(** X21. [edit_metadata] never records a group name twice: when the names
    in "Property groups" of the survey are distinct before a call, they
    are distinct after it, whether the call returns or raises. *)
Theorem edit_metadata_keeps_names_distinct self entries ws :
  names_distinct self ws →
  names_distinct self (final_state (edit_metadata self entries ws)).
Proof.
  revert ws. change (keeps_distinct self (edit_metadata self entries)).
  unfold edit_metadata.
  apply kd_bind; [apply kd_for_each; intros [k v]; apply kd_edit_entry|].
  intros _. apply kd_bind; [apply kd_of_record, kr_propagate|].
  intros _. apply kd_of_record, kr_propagate.
Qed.

Lemma edit_metadata_keeps_names_distinct_witness :
  let entries := [("Property groups"%string,
                   PList [PGroup (mkGroup "A" [21; 22]%N);
                          PGroup (mkGroup "A" [21; 22]%N)])] in
  names_distinct 10%N survey_ws
  ∧ names_distinct 10%N (final_state (edit_metadata 10%N entries survey_ws)).
Proof.
  assert (H : names_distinct 10%N survey_ws).
  { intros s l Hs Hl. vm_compute in Hs. injection Hs as <-.
    vm_compute in Hl. injection Hl as <-. constructor. }
  split; [exact H|].
  exact (edit_metadata_keeps_names_distinct 10%N _ survey_ws H).
Defined.

End EMSurveyFacts.

(** ** Further properties of the copy of a ground TEM survey *)

Module GroundTEMFacts.
Import GroundTEM GroundTEMProps.

Local Open Scope Z_scope.

(** X22. The value map of a copy: the identifier at position i of the
    distinct identifiers in increasing order gets the number i + 1, also
    when it is 0; 0 maps to 0 when it is not an identifier; and the keys
    are 0 and the identifiers, nothing else. *)
Theorem value_map_of_keys tx :
  (∀ i v, unique tx !! i = Some v →
          value_map_of tx !! v = Some (Z.of_nat i + 1))
  ∧ (0 ∉ tx → value_map_of tx !! 0 = Some 0)
  ∧ (∀ v, value_map_of tx !! v = None ↔ v ≠ 0 ∧ v ∉ tx).
Proof.
  split; [|split].
  - intros i v Hi. rewrite (value_map_of_rank tx i v Hi). f_equal. lia.
  - intros H0. rewrite value_map_of_other by done. by rewrite decide_True.
  - intros v. split.
    + intros Hn. destruct (decide (v ∈ tx)) as [Hin|Hout].
      * apply elem_of_unique, list_elem_of_lookup in Hin as [i Hi].
        by rewrite (value_map_of_rank tx i v Hi) in Hn.
      * rewrite value_map_of_other in Hn by done. by case_decide.
    + intros [Hne Hout]. rewrite value_map_of_other by done. by rewrite decide_False.
Qed.

Lemma value_map_of_keys_witness :
  value_map_of [7; 4; 7] !! 7 = Some 2 ∧ value_map_of [7; 4; 7] !! 5 = None.
Proof.
  destruct (value_map_of_keys [7; 4; 7]) as (Hrank & _ & Hkeys).
  split.
  - apply (Hrank 1%nat 7). vm_compute. reflexivity.
  - apply Hkeys. split; [lia|].
    intros H. apply list_elem_of_In in H. cbn in H. intuition lia.
Defined.

Lemma value_map_of_inj tx v w a :
  value_map_of tx !! v = Some a → value_map_of tx !! w = Some a → v = w.
Proof.
  intros Hv Hw.
  destruct (decide (v ∈ tx)) as [Hvin|Hvout], (decide (w ∈ tx)) as [Hwin|Hwout].
  - apply elem_of_unique, list_elem_of_lookup in Hvin as [i Hi].
    apply elem_of_unique, list_elem_of_lookup in Hwin as [j Hj].
    rewrite (value_map_of_rank tx i v Hi) in Hv.
    rewrite (value_map_of_rank tx j w Hj) in Hw.
    injection Hv as <-. injection Hw as Hw.
    assert (i = j) as -> by lia. congruence.
  - apply elem_of_unique, list_elem_of_lookup in Hvin as [i Hi].
    rewrite (value_map_of_rank tx i v Hi) in Hv.
    rewrite value_map_of_other in Hw by done. case_decide; [|done].
    injection Hv as <-. injection Hw as Hw. lia.
  - apply elem_of_unique, list_elem_of_lookup in Hwin as [j Hj].
    rewrite (value_map_of_rank tx j w Hj) in Hw.
    rewrite value_map_of_other in Hv by done. case_decide; [|done].
    injection Hv as <-. injection Hw as Hw. lia.
  - rewrite value_map_of_other in Hv, Hw by done.
    repeat case_decide; congruence.
Qed.

(** X23. Re-indexing through the value map keeps the length of the array
    and the pairing: two entries get the same new number exactly when they
    had the same identifier. *)
Theorem reindex_keeps_pairing tx values out :
  reindex (value_map_of tx) values = Some out →
  length out = length values
  ∧ ∀ i j v w a b,
      values !! i = Some v → values !! j = Some w →
      out !! i = Some a → out !! j = Some b →
      (a = b ↔ v = w).
Proof.
  intros H. apply mapM_Some in H. split; [symmetry; by eapply Forall2_length|].
  intros i j v w a b Hv Hw Ha Hb.
  pose proof (Forall2_lookup_lr _ _ _ _ _ _ H Hv Ha) as Hva.
  pose proof (Forall2_lookup_lr _ _ _ _ _ _ H Hw Hb) as Hwb.
  cbn in Hva, Hwb. split.
  - intros <-. exact (value_map_of_inj tx v w a Hva Hwb).
  - intros <-. congruence.
Qed.

Lemma reindex_keeps_pairing_witness :
  reindex (value_map_of [7; 4; 7]) [7; 4; 7; 0] = Some [2; 1; 2; 0]
  ∧ length [2; 1; 2; 0] = length [7; 4; 7; 0].
Proof.
  split; [vm_compute; reflexivity|].
  apply (reindex_keeps_pairing [7; 4; 7] [7; 4; 7; 0] [2; 1; 2; 0]).
  vm_compute; reflexivity.
Defined.

Lemma reindex_undefined vm values v :
  v ∈ values → vm !! v = None → reindex vm values = None.
Proof.
  intros Hin Hv. destruct (reindex vm values) as [out|] eqn:E; [|done].
  exfalso. assert (is_Some (vm !! v)) as [? ?]; [|congruence].
  assert (is_Some (reindex vm values)) as Hs by (by rewrite E).
  apply mapM_is_Some in Hs. rewrite Forall_forall in Hs. by apply Hs.
Qed.

(** X24. The copy of a receivers survey raises KeyError when the copy keeps
    a non-zero identifier that no transmitter carries; the identifiers and
    the value map of the copy are then left as they were. *)
Theorem copy_unmatched_identifier_raises labels comp ent emap v :
  v ∈ ent → v ≠ 0 → v ∉ comp →
  let result := copy_tx_ids Receivers labels (Some comp) None
                            (mkPair (Some ent) emap None) in
  raises_class KeyError result
  ∧ entity_values (final_state result) = Some ent
  ∧ entity_value_map (final_state result) = emap.
Proof.
  intros Hin Hne Hout.
  set (tx_ids := filter (fun v => v ∈ intersect1d ent comp) comp).
  assert (Hnone : value_map_of tx_ids !! v = None).
  { rewrite value_map_of_other, decide_False; [done..|].
    unfold tx_ids. rewrite list_elem_of_filter. tauto. }
  pose proof (reindex_undefined _ ent v Hin Hnone) as Href.
  cbv zeta.
  unfold copy_tx_ids, bind, get, set_complement_values, set_entity_values,
    set_entity_value_map, modify, raise.
  cbn [entity_values entity_value_map complement_values transmitters_values].
  cbv zeta. fold tx_ids.
  destruct (relabel (value_map_of tx_ids) labels); [|done].
  destruct (reindex (value_map_of tx_ids) tx_ids); [|done].
  by rewrite Href.
Qed.

Lemma copy_unmatched_identifier_raises_witness :
  3 ∈ [1; 2; 3] ∧ (3 ≠ 0) ∧ (3 ∉ [1; 2])
  ∧ raises_class KeyError
      (copy_tx_ids Receivers loops (Some [1; 2]) None
                   (mkPair (Some [1; 2; 3]) loops None)).
Proof.
  assert (H1 : 3 ∈ [1; 2; 3]) by (apply list_elem_of_In; cbn; tauto).
  assert (H2 : 3 ≠ 0) by lia.
  assert (H3 : 3 ∉ [1; 2]).
  { intros H. apply list_elem_of_In in H. cbn in H. intuition lia. }
  split; [exact H1|]. split; [exact H2|]. split; [exact H3|].
  exact (proj1 (copy_unmatched_identifier_raises loops [1; 2] [1; 2; 3] loops 3
                  H1 H2 H3)).
Defined.

Lemma select_cons {A} (b : bool) (m : list bool) (x : A) (l : list A) :
  select (b :: m) (x :: l)
  = (fun out => if b then x :: out else out) <$> select m l.
Proof.
  unfold select. cbn [length zip zip_with].
  destruct (decide (length m = length l)) as [E|E].
  - rewrite !bool_decide_eq_true_2 by (cbn; congruence). cbn.
    by destruct b.
  - rewrite !bool_decide_eq_false_2 by (cbn; congruence). done.
Qed.

(** X25. A boolean mask applies to an array of the same length only; it
    keeps a subsequence of the values, in order, one value per true entry,
    and a mask that is true everywhere keeps the array. *)
Theorem select_keeps_order {A} (mask : list bool) (l out : list A) :
  select mask l = Some out →
  length mask = length l
  ∧ out `sublist_of` l
  ∧ length out = length (filter (fun b => b = true) mask)
  ∧ (Forall (fun b => b = true) mask → out = l).
Proof.
  revert l out. induction mask as [|b mask IH]; intros [|x l] out.
  - intros [= <-]. split_and!; [done|constructor|done|done].
  - done.
  - done.
  - rewrite select_cons. destruct (select mask l) as [out'|] eqn:E; [|done].
    destruct (IH l out' E) as (Hlen & Hsub & Hcount & Hall).
    destruct b; cbn; intros [= <-].
    + split_and!; [congruence|by apply sublist_skip| |].
      { rewrite decide_True by done. cbn [length]. by rewrite Hcount. }
      intros [_ H]%Forall_cons. by rewrite Hall.
    + split_and!; [congruence|by apply sublist_cons| |].
      { by rewrite decide_False by done. }
      by intros [? _]%Forall_cons.
Qed.

Lemma select_keeps_order_witness :
  select [false; true; true; true] [1; 2; 3; 3] = Some [2; 3; 3]
  ∧ [2; 3; 3] `sublist_of` [1; 2; 3; 3].
Proof.
  split; [reflexivity|].
  apply (select_keeps_order [false; true; true; true] [1; 2; 3; 3] [2; 3; 3]).
  reflexivity.
Defined.

End GroundTEMFacts.
